(** * HTTP signatures (go-fed/httpsig as vendored by metapod)

    A shallow embedding of [signing.go] and [verifying.go]: the canonical
    signature string, the signature-parameter codec, the scheme locator and
    the sign / verify drivers, together with the parts of Go's [strings],
    [bytes], [net/textproto], [net/http] and [encoding/base64] packages that
    the two files call.

    Go strings are byte sequences and are modelled by [string].
    [strings.ToLower] and [strings.TrimSpace] are embedded as Go computes
    them on ASCII strings, byte by byte; on a string with a byte above 127 Go
    maps and classifies runes by the Unicode tables, which are not embedded.
    Where a statement describes the lowercased names or the trimmed values
    themselves, these strings are assumed to be ASCII ([isASCII]). *)

From Stdlib Require Import Ascii String ZArith Lia ZifyNat Bool.
From stdpp Require Import base option list strings gmap.

Local Open Scope Z_scope.
Local Open Scope nat_scope.

(** ** Package [strings] *)

Module strings.

Definition byte_in (lo hi : nat) (c : ascii) : bool :=
  let n := nat_of_ascii c in (lo <=? n) && (n <=? hi).

Definition isUpper (c : ascii) : bool := byte_in 65 90 c.
Definition isLower (c : ascii) : bool := byte_in 97 122 c.

Definition toLowerByte (c : ascii) : ascii :=
  if isUpper c then ascii_of_nat (nat_of_ascii c + 32) else c.
Definition toUpperByte (c : ascii) : ascii :=
  if isLower c then ascii_of_nat (nat_of_ascii c - 32) else c.

(** [strings.ToLower] on an ASCII string (the branch [isASCII] of the Go
    function): the letters A to Z are lowered, every other byte is kept. *)
Fixpoint ToLower (s : string) : string :=
  match s with
  | "" => ""
  | String c s' => String (toLowerByte c) (ToLower s')
  end.

(** [strings.Index]: the byte offset of the first occurrence of [substr],
    [None] where Go returns -1. *)
Fixpoint Index (s substr : string) : option nat :=
  match s with
  | "" => if String.prefix substr "" then Some 0 else None
  | String _ s' =>
      if String.prefix substr s then Some 0 else S <$> Index s' substr
  end.

Definition Contains (s substr : string) : bool :=
  if Index s substr is Some _ then true else false.

(** Put a byte in front of the first piece of a split. *)
Definition cons_head (c : ascii) (l : list string) : list string :=
  match l with
  | [] => [String c ""]
  | x :: r => String c x :: r
  end.

(** The scan behind [Split] and [SplitN] for a non-empty separator:
    [cuts] is the number of separators that may still be cut at ([None]:
    no bound), [skip] the number of bytes of a separator just matched that
    are still to be passed over. *)
Fixpoint genSplit (sep : string) (cuts : option nat) (skip : nat)
    (s : string) : list string :=
  match s with
  | "" => [""]
  | String c s' =>
      match skip with
      | S k => genSplit sep cuts k s'
      | 0 =>
          match cuts with
          | Some 0 => [s]
          | _ =>
              if String.prefix sep s
              then "" :: genSplit sep (pred <$> cuts) (String.length sep - 1) s'
              else cons_head c (genSplit sep cuts 0 s')
          end
      end
  end.

(** With an empty separator Go cuts after every (UTF-8) character. *)
Fixpoint explode (cuts : option nat) (s : string) : list string :=
  match s with
  | "" => []
  | String c s' =>
      match cuts, s' with
      | Some 0, _ => [s]
      | _, "" => [s]
      | _, _ => String c "" :: explode (pred <$> cuts) s'
      end
  end.

Definition Split (s sep : string) : list string :=
  if decide (sep = "") then explode None s else genSplit sep None 0 s.

(** [SplitN s sep n]: nothing for [n = 0], everything for [n < 0], at most
    [n] pieces (the last one the unsplit rest) for [n > 0]. *)
Definition SplitN (s sep : string) (n : Z) : list string :=
  if decide (n = 0)%Z then []
  else
    let cuts := if decide (n < 0)%Z then None else Some (Z.to_nat n - 1) in
    if decide (sep = "") then explode cuts s else genSplit sep cuts 0 s.

Fixpoint TrimLeftFunc (f : ascii → bool) (s : string) : string :=
  match s with
  | "" => ""
  | String c s' => if f c then TrimLeftFunc f s' else s
  end.

Fixpoint TrimRightFunc (f : ascii → bool) (s : string) : string :=
  match s with
  | "" => ""
  | String c s' =>
      match TrimRightFunc f s' with
      | "" => if f c then "" else String c ""
      | r => String c r
      end
  end.

Fixpoint inCutset (cutset : string) (c : ascii) : bool :=
  match cutset with
  | "" => false
  | String d r => if decide (c = d) then true else inCutset r c
  end.

Definition Trim (s cutset : string) : string :=
  TrimLeftFunc (inCutset cutset) (TrimRightFunc (inCutset cutset) s).

(** Go's [asciiSpace]: tab, line feed, vertical tab, form feed, carriage
    return and space. *)
Definition isSpace (c : ascii) : bool := Ascii.is_space c.

(** [strings.TrimSpace] on an ASCII string: the bytes of [asciiSpace] are
    cut at both ends. *)
Definition TrimSpace (s : string) : string :=
  TrimLeftFunc isSpace (TrimRightFunc isSpace s).

(** [strings.Join], used to state what the writing loops produce. *)
Fixpoint Join (l : list string) (sep : string) : string :=
  match l with
  | [] => ""
  | [x] => x
  | x :: r => x +:+ sep +:+ Join r sep
  end.

End strings.

(** ** Package [net/textproto]: canonical header keys *)

Module textproto.

(** [validHeaderFieldByte]: the token bytes of RFC 7230. *)
Definition validHeaderFieldByte (c : ascii) : bool :=
  strings.byte_in 48 57 c || strings.isUpper c || strings.isLower c
  || strings.inCutset "!#$%&'*+-.^_`|~" c.

Fixpoint validHeaderField (s : string) : bool :=
  match s with
  | "" => true
  | String c s' => validHeaderFieldByte c && validHeaderField s'
  end.

(** The second loop of [canonicalMIMEHeaderKey]: upper case for the first
    letter and for a letter after a dash, lower case elsewhere. *)
Fixpoint canonicalize (upper : bool) (s : string) : string :=
  match s with
  | "" => ""
  | String c s' =>
      let c' := if upper then strings.toUpperByte c else strings.toLowerByte c in
      String c' (canonicalize (if decide (c' = "-"%char) then true else false) s')
  end.

(** A key holding a byte that is no token byte is returned as it is. *)
Definition CanonicalMIMEHeaderKey (s : string) : string :=
  if validHeaderField s then canonicalize true s else s.

End textproto.

(** ** Errors

    Go builds its errors with [fmt.Errorf]; one constructor stands for each
    message of the two files, with the values the message quotes. *)

Inductive error : Type :=
  | ErrMacPrivateKeyType
      (* private key for MAC signing must be of type []byte *)
  | ErrMacPublicKeyType
      (* public key for MAC verifying must be of type []byte *)
  | ErrRequestTargetNotPermitted
      (* cannot sign with (request-target) on anything other than an http request *)
  | ErrMissingHeader (i : string)
      (* missing header i *)
  | ErrNoCrypto (algo : string)
      (* no crypto implementation available for algo *)
  | ErrInvalidSignature
      (* invalid http signature *)
  | ErrBothSchemes
      (* both Signature and Authorization have signature parameters *)
  | ErrNeitherScheme
      (* neither Signature nor Authorization have signature parameters *)
  | ErrMalformedParameter (kv : list string)
      (* malformed http signature parameter: kv *)
  | ErrMissingParameter (p : string)
      (* missing p parameter in http signature *)
  | ErrCorruptInput
      (* base64.CorruptInputError *)
  | ErrCapability (msg : string)
      (* an error returned by a cryptographic capability *).

#[global] Instance error_eq_dec : EqDecision error.
Proof. solve_decision. Defined.

(** ** Package [bytes]: [Buffer] over shared backing arrays

    A [bytes.Buffer] is a struct holding a byte slice.  Passing a [Buffer] by
    value copies the struct, not the array the slice points to: the copy and
    the original then share the backing array, each with a length of its
    own.  The arrays live in an arena; every function that declares a buffer
    runs in an arena of its own ([run]). *)

Module bytes.

Abbreviation Arena := (list (list ascii)).

(** [buf]: the backing array of the slice ([None] for the nil slice of the
    zero [Buffer]); [len]: the length of the slice.  Nothing here reads
    from a buffer, so the read offset stays 0 and is left out; the
    capacity is the length of the array. *)
Record Buffer : Type := mkBuffer { buf : option nat; len : nat }.

Definition zero : Buffer := {| buf := None; len := 0 |}.

Definition M (A : Type) : Type := Arena → A * Arena.

#[global] Instance M_ret : MRet M := λ A (a : A) h, (a, h).
#[global] Instance M_bind : MBind M := λ A B (f : A → M B) (m : M A) h,
  let '(a, h') := m h in f a h'.

Definition run {A} (m : M A) : A := (m []).1.

Definition array (h : Arena) (b : Buffer) : list ascii :=
  match buf b with
  | Some p => default [] (h !! p)
  | None => []
  end.

Definition smallBufferSize : nat := 64.

(** The capacity [grow] asks for when the slice cannot be extended in
    place. *)
Definition growCap (b : Buffer) (c n : nat) : nat :=
  if decide (buf b = None ∧ n ≤ smallBufferSize) then smallBufferSize
  else 2 * c + n.

(** [WriteString]: extend the slice by [len(s)] bytes, in place when the
    capacity allows it ([tryGrowByReslice]) and in a new, larger array
    holding a copy of the bytes otherwise ([grow]), then copy [s] into the
    new bytes. *)
Definition WriteString (b : Buffer) (s : string) : M Buffer := λ h,
  let data := list_ascii_of_string s in
  let n := length data in
  let a := array h b in
  let m := len b in
  if decide (n ≤ length a - m) then
    match buf b with
    | Some p =>
        ({| buf := Some p; len := m + n |},
         <[p := take m a ++ data ++ drop (m + n) a]> h)
    | None => (b, h)
    end
  else
    let c := growCap b (length a) n in
    ({| buf := Some (length h); len := m + n |},
     h ++ [take m a ++ data ++ replicate (c - m - n) "000"%char]).

(** [String]: the bytes of the slice, as a string. *)
Definition String (b : Buffer) : M string := λ h,
  (string_of_list_ascii (take (len b) (array h b)), h).

End bytes.

(** ** Package [net/http]: headers and messages *)

Module http.

(** [http.Header] is a [map[string][]string]. *)
Abbreviation Header := (gmap string (list string)).

Definition Add (h : Header) (key value : string) : Header :=
  let k := textproto.CanonicalMIMEHeaderKey key in
  <[k := default [] (h !! k) ++ [value]]> h.

Definition Get (h : Header) (key : string) : string :=
  match h !! textproto.CanonicalMIMEHeaderKey key with
  | Some (v :: _) => v
  | _ => ""
  end.

(** The fields of [http.Request] that are read: the method, the URL as
    [r.URL.String()] prints it, and the header map. *)
Record Request : Type := mkRequest {
  Method : string;
  URL : string;
  ReqHeader : Header
}.

(** An [http.ResponseWriter], reduced to the map its [Header()] returns. *)
Record ResponseWriter : Type := mkResponseWriter { RespHeader : Header }.

End http.

(** ** Package [encoding/base64], standard alphabet with padding *)

Module base64.

Definition encodeStd : string :=
  "ABCDEFGHIJKLMNOPQRSTUVWXYZabcdefghijklmnopqrstuvwxyz0123456789+/".

Definition alphabet : list ascii := list_ascii_of_string encodeStd.

Definition enc6 (n : nat) : ascii := nth n alphabet "="%char.

Fixpoint index_of (c : ascii) (l : list ascii) : option nat :=
  match l with
  | [] => None
  | d :: r => if decide (c = d) then Some 0 else S <$> index_of c r
  end.

Definition dec6 (c : ascii) : option nat := index_of c alphabet.

Fixpoint encode (src : list ascii) : string :=
  match src with
  | [] => ""
  | [a] =>
      let x := nat_of_ascii a in
      String (enc6 (x / 4)) (String (enc6 (x mod 4 * 16)) "==")
  | [a; b] =>
      let x := nat_of_ascii a in
      let y := nat_of_ascii b in
      String (enc6 (x / 4)) (String (enc6 (x mod 4 * 16 + y / 16))
        (String (enc6 (y mod 16 * 4)) "="))
  | a :: b :: c :: r =>
      let x := nat_of_ascii a in
      let y := nat_of_ascii b in
      let z := nat_of_ascii c in
      String (enc6 (x / 4)) (String (enc6 (x mod 4 * 16 + y / 16))
        (String (enc6 (y mod 16 * 4 + z / 64)) (String (enc6 (z mod 64))
          (encode r))))
  end.

(** Byte slices that are only read are modelled by strings. *)
Definition EncodeToString (src : string) : string :=
  encode (list_ascii_of_string src).

(** The decoder passes over carriage returns and line feeds. *)
Fixpoint stripNewlines (s : string) : string :=
  match s with
  | "" => ""
  | String c r =>
      if decide (c = "013"%char ∨ c = "010"%char) then stripNewlines r
      else String c (stripNewlines r)
  end.

Definition byte3 (p q r s : nat) : list ascii :=
  [ascii_of_nat (p * 4 + q / 16);
   ascii_of_nat (q mod 16 * 16 + r / 4);
   ascii_of_nat (r mod 4 * 64 + s)].

Fixpoint decode (s : string) : option (list ascii) :=
  match s with
  | "" => Some []
  | String c1 (String c2 (String c3 (String c4 rest))) =>
      match dec6 c1, dec6 c2 with
      | Some p, Some q =>
          match dec6 c3, dec6 c4 with
          | Some r, Some s => (byte3 p q r s ++.) <$> decode rest
          | Some r, None =>
              if decide (c4 = "="%char ∧ rest = "")
              then Some (take 2 (byte3 p q r 0)) else None
          | None, _ =>
              if decide (c3 = "="%char ∧ c4 = "="%char ∧ rest = "")
              then Some (take 1 (byte3 p q 0 0)) else None
          end
      | _, _ => None
      end
  | _ => None
  end.

(** [DecodeString]: the bytes, or [CorruptInputError]. *)
Definition DecodeString (s : string) : string * option error :=
  match decode (stripNewlines s) with
  | Some l => (string_of_list_ascii l, None)
  | None => ("", Some ErrCorruptInput)
  end.

End base64.

(** ** Package [crypto]: keys and capabilities *)

(** [crypto.PrivateKey] and [crypto.PublicKey] are empty interfaces: a value
    is either a byte slice (the shape a MAC needs) or a key of some other
    dynamic type, known to the capability only. *)
Inductive Key : Type :=
  | BytesKey (k : string)
  | OpaqueKey (id : nat).

(** What the type assertion [pKey.([]byte)] yields. *)
Definition assertBytes (pKey : Key) : option string :=
  match pKey with
  | BytesKey k => Some k
  | OpaqueKey _ => None
  end.

(** Modelled from the spec: the interface of a keyed-MAC capability, whose
    declaration is in a file that is absent (MACProvider: name, sign(data,
    secret), verify(data, candidate, secret)). *)
Record macer : Type := mkMacer {
  macer_Sign : string → string → string * option error;
  macer_Equal : string → string → string → bool * option error;
  macer_String : string
}.

(** Modelled from the spec: the interface of an asymmetric-signature
    capability, whose declaration is in a file that is absent
    (AsymmetricSigner: name, sign(random-source, privateKey, data),
    verify(publicKey, data, signature)).  The random source is the list of
    bytes it will yield. *)
Record signer : Type := mkSigner {
  signer_Sign : list ascii → Key → string → string * option error;
  signer_Verify : Key → string → string → option error;
  signer_String : string
}.

(** ** [signing.go] *)

(** Build a string with a double quote in it from the byte's code. *)
Definition parameterValueDelimiter : string := String "034"%char "".

Definition keyIdParameter : string := "keyId".
Definition algorithmParameter : string := "algorithm".
Definition headersParameter : string := "headers".
Definition signatureParameter : string := "signature".
Definition parameterKVSeparater : string := "=".
Definition parameterSeparater : string := ",".
Definition headerParameterValueDelim : string := " ".
Definition RequestTarget : string := "(request-target)".
Definition dateHeader : string := "date".

Definition headerFieldDelimiter : string := ": ".
Definition headersDelimiter : string := String "010"%char "".
Definition headerValueDelimiter : string := ", ".
Definition requestTargetSeparator : string := " ".

Definition defaultHeaders : list string := [dateHeader].

(** Modelled from the spec: the names of the two header slots a signature
    may be carried in (a dedicated signature header and an authorization-style
    header); the type and its two constants are declared in a file that is
    absent. *)
Abbreviation SignatureScheme := string.
Definition Signature : SignatureScheme := "Signature".
Definition Authorization : SignatureScheme := "Authorization".

(** The loop [for i, h := range headers] of [setSignatureHeader]. *)
Fixpoint writeHeaderNames (n : nat) (i : nat) (headers : list string)
    (b : bytes.Buffer) : bytes.M bytes.Buffer :=
  match headers with
  | [] => mret b
  | h :: rest =>
      b ← bytes.WriteString b (strings.ToLower h);
      b ← (if decide (Z.of_nat i ≠ Z.of_nat n - 1)%Z
           then bytes.WriteString b headerParameterValueDelim
           else mret b);
      writeHeaderNames n (S i) rest b
  end.

Definition setSignatureHeader (h : http.Header)
    (targetHeader pubKeyId algo enc : string) (headers : list string)
    : http.Header :=
  let headers := if decide (length headers = 0) then defaultHeaders else headers in
  let value := bytes.run (
    let b := bytes.zero in
    (* KeyId *)
    b ← bytes.WriteString b keyIdParameter;
    b ← bytes.WriteString b parameterKVSeparater;
    b ← bytes.WriteString b parameterValueDelimiter;
    b ← bytes.WriteString b pubKeyId;
    b ← bytes.WriteString b parameterValueDelimiter;
    b ← bytes.WriteString b parameterSeparater;
    (* Algorithm (deprecated) *)
    b ← bytes.WriteString b algorithmParameter;
    b ← bytes.WriteString b parameterKVSeparater;
    b ← bytes.WriteString b parameterValueDelimiter;
    b ← bytes.WriteString b algo;
    b ← bytes.WriteString b parameterValueDelimiter;
    b ← bytes.WriteString b parameterSeparater;
    (* Headers *)
    b ← bytes.WriteString b headersParameter;
    b ← bytes.WriteString b parameterKVSeparater;
    b ← bytes.WriteString b parameterValueDelimiter;
    b ← writeHeaderNames (length headers) 0 headers b;
    b ← bytes.WriteString b parameterValueDelimiter;
    b ← bytes.WriteString b parameterSeparater;
    (* Signature *)
    b ← bytes.WriteString b signatureParameter;
    b ← bytes.WriteString b parameterKVSeparater;
    b ← bytes.WriteString b parameterValueDelimiter;
    b ← bytes.WriteString b enc;
    b ← bytes.WriteString b parameterValueDelimiter;
    bytes.String b) in
  http.Add h targetHeader value.

(** A request-target function has the Go type [func(b bytes.Buffer) error]:
    the buffer is passed BY VALUE, so the function works on a copy of the
    caller's struct (whose slice shares the caller's backing array) and
    returns an error only. *)
Definition requestTargetFn : Type := bytes.Buffer → bytes.M (option error).

Definition requestTargetNotPermitted : requestTargetFn :=
  λ b, mret (Some ErrRequestTargetNotPermitted).

Definition addRequestTarget (r : http.Request) : requestTargetFn :=
  λ b,
    b ← bytes.WriteString b RequestTarget;
    b ← bytes.WriteString b headerFieldDelimiter;
    b ← bytes.WriteString b (strings.ToLower (http.Method r));
    b ← bytes.WriteString b requestTargetSeparator;
    b ← bytes.WriteString b (http.URL r);
    mret None.

(** The loop [for i, v := range hv] of [signatureString]. *)
Fixpoint writeValues (n : nat) (i : nat) (hv : list string)
    (b : bytes.Buffer) : bytes.M bytes.Buffer :=
  match hv with
  | [] => mret b
  | v :: rest =>
      b ← bytes.WriteString b (strings.TrimSpace v);
      b ← (if decide (Z.of_nat i < Z.of_nat n - 1)%Z
           then bytes.WriteString b headerValueDelimiter
           else mret b);
      writeValues n (S i) rest b
  end.

(** The loop [for n, i := range include] of [signatureString]: the buffer
    and the error that ended the loop, if one did.  The call
    [requestTargetFn(b)] hands the callee a copy of [b]; the caller's [b] is
    the same struct after the call. *)
Fixpoint writeComponents (values : http.Header) (fn : requestTargetFn)
    (len_include : nat) (n : nat) (include : list string) (b : bytes.Buffer)
    : bytes.M (bytes.Buffer * option error) :=
  match include with
  | [] => mret (b, None)
  | i :: rest =>
      let i := strings.ToLower i in
      r ← (if decide (i = RequestTarget) then
             err ← fn b;
             mret (b, err)
           else
             match values !! textproto.CanonicalMIMEHeaderKey i with
             | None => mret (b, Some (ErrMissingHeader i))
             | Some hv =>
                 b ← bytes.WriteString b i;
                 b ← bytes.WriteString b headerFieldDelimiter;
                 b ← writeValues (length hv) 0 hv b;
                 mret (b, None)
             end);
      match r.2 with
      | Some err => mret (r.1, Some err)
      | None =>
          b ← (if decide (Z.of_nat n < Z.of_nat len_include - 1)%Z
               then bytes.WriteString r.1 headersDelimiter
               else mret r.1);
          writeComponents values fn len_include (S n) rest b
      end
  end.

Definition signatureString (values : http.Header) (include : list string)
    (fn : requestTargetFn) : string * option error :=
  let include := if decide (length include = 0) then defaultHeaders else include in
  bytes.run (
    let b := bytes.zero in
    r ← writeComponents values fn (length include) 0 include b;
    match r.2 with
    | Some err => mret ("", Some err)
    | None => s ← bytes.String r.1; mret (s, None)
    end).

Module macSigner.

Record t : Type := mk {
  m : macer;
  headers : list string;
  targetHeader : SignatureScheme
}.

Definition signSignature (ms : t) (pKey : Key) (s : string)
    : string * option error :=
  match assertBytes pKey with
  | None => ("", Some ErrMacPrivateKeyType)
  | Some pKeyBytes =>
      match macer_Sign (m ms) s pKeyBytes with
      | (_, Some err) => ("", Some err)
      | (sig, None) => (base64.EncodeToString sig, None)
      end
  end.

Definition signatureStringResponse (ms : t) (r : http.ResponseWriter)
    : string * option error :=
  signatureString (http.RespHeader r) (headers ms) requestTargetNotPermitted.

Definition signatureString (ms : t) (r : http.Request) : string * option error :=
  signatureString (http.ReqHeader r) (headers ms) (addRequestTarget r).

(** The request comes back with the header map as the call left it. *)
Definition SignRequest (ms : t) (pKey : Key) (pubKeyId : string)
    (r : http.Request) : http.Request * option error :=
  match signatureString ms r with
  | (_, Some err) => (r, Some err)
  | (s, None) =>
      match signSignature ms pKey s with
      | (_, Some err) => (r, Some err)
      | (enc, None) =>
          (http.mkRequest (http.Method r) (http.URL r)
             (setSignatureHeader (http.ReqHeader r) (targetHeader ms) pubKeyId
                (macer_String (m ms)) enc (headers ms)),
           None)
      end
  end.

Definition SignResponse (ms : t) (pKey : Key) (pubKeyId : string)
    (r : http.ResponseWriter) : http.ResponseWriter * option error :=
  match signatureStringResponse ms r with
  | (_, Some err) => (r, Some err)
  | (s, None) =>
      match signSignature ms pKey s with
      | (_, Some err) => (r, Some err)
      | (enc, None) =>
          (http.mkResponseWriter
             (setSignatureHeader (http.RespHeader r) (targetHeader ms) pubKeyId
                (macer_String (m ms)) enc (headers ms)),
           None)
      end
  end.

End macSigner.

Module asymmSigner.

Record t : Type := mk {
  s : signer;
  headers : list string;
  targetHeader : SignatureScheme
}.

(** [rand] stands for the bytes [rand.Reader] yields during the call. *)
Definition signSignature (a : t) (rand : list ascii) (pKey : Key)
    (str : string) : string * option error :=
  match signer_Sign (s a) rand pKey str with
  | (_, Some err) => ("", Some err)
  | (sig, None) => (base64.EncodeToString sig, None)
  end.

Definition signatureStringResponse (a : t) (r : http.ResponseWriter)
    : string * option error :=
  signatureString (http.RespHeader r) (headers a) requestTargetNotPermitted.

Definition signatureString (a : t) (r : http.Request) : string * option error :=
  signatureString (http.ReqHeader r) (headers a) (addRequestTarget r).

Definition SignRequest (a : t) (rand : list ascii) (pKey : Key)
    (pubKeyId : string) (r : http.Request) : http.Request * option error :=
  match signatureString a r with
  | (_, Some err) => (r, Some err)
  | (str, None) =>
      match signSignature a rand pKey str with
      | (_, Some err) => (r, Some err)
      | (enc, None) =>
          (http.mkRequest (http.Method r) (http.URL r)
             (setSignatureHeader (http.ReqHeader r) (targetHeader a) pubKeyId
                (signer_String (s a)) enc (headers a)),
           None)
      end
  end.

Definition SignResponse (a : t) (rand : list ascii) (pKey : Key)
    (pubKeyId : string) (r : http.ResponseWriter)
    : http.ResponseWriter * option error :=
  match signatureStringResponse a r with
  | (_, Some err) => (r, Some err)
  | (str, None) =>
      match signSignature a rand pKey str with
      | (_, Some err) => (r, Some err)
      | (enc, None) =>
          (http.mkResponseWriter
             (setSignatureHeader (http.RespHeader r) (targetHeader a) pubKeyId
                (signer_String (s a)) enc (headers a)),
           None)
      end
  end.

End asymmSigner.

(** ** [verifying.go] *)

Definition hasSignatureParameters (s : string) : bool :=
  strings.Contains s keyIdParameter
  || strings.Contains s headersParameter
  || strings.Contains s signatureParameter.

Definition getSignatureScheme (h : http.Header) : string * option error :=
  let s := http.Get h Signature in
  let sigHasAll := hasSignatureParameters s in
  let a := http.Get h Authorization in
  let authHasAll := hasSignatureParameters a in
  if sigHasAll && authHasAll then ("", Some ErrBothSchemes)
  else if negb sigHasAll && negb authHasAll then ("", Some ErrNeitherScheme)
  else if sigHasAll then (s, None)
  else (a, None).

(** The four named results of [getSignatureComponents]. *)
Record components : Type := mkComponents {
  c_kId : string;
  c_sig : string;
  c_headers : list string;
  c_err : option error
}.

(** The loop [for _, p := range params]: the three variables go round the
    loop; a token that does not split in two ends it with the variables as
    they are. *)
Fixpoint scanParams (params : list string) (kId sig : string)
    (headers : list string) : components :=
  match params with
  | [] => mkComponents kId sig headers None
  | p :: rest =>
      let kv := strings.SplitN p parameterKVSeparater 2 in
      if decide (length kv ≠ 2) then
        mkComponents kId sig headers (Some (ErrMalformedParameter kv))
      else
        let k := nth 0 kv "" in
        let v := strings.Trim (nth 1 kv "") parameterValueDelimiter in
        if decide (k = keyIdParameter) then scanParams rest v sig headers
        else if decide (k = algorithmParameter) then
          scanParams rest kId sig headers
        else if decide (k = headersParameter) then
          scanParams rest kId sig (strings.Split v headerParameterValueDelim)
        else if decide (k = signatureParameter) then
          scanParams rest kId v headers
        else scanParams rest kId sig headers
  end.

Definition getSignatureComponents (s : string) : components :=
  let params := strings.Split s parameterSeparater in
  let r := scanParams params "" "" [] in
  match c_err r with
  | Some _ => r
  | None =>
      if decide (String.length (c_kId r) = 0) then
        mkComponents (c_kId r) (c_sig r) (c_headers r)
          (Some (ErrMissingParameter keyIdParameter))
      else if decide (String.length (c_sig r) = 0) then
        mkComponents (c_kId r) (c_sig r) (c_headers r)
          (Some (ErrMissingParameter signatureParameter))
      else if decide (length (c_headers r) = 0) then
        mkComponents (c_kId r) (c_sig r) defaultHeaders None
      else r
  end.

Module verifier.

Record t : Type := mk {
  header : http.Header;
  kId : string;
  signature : string;
  headers : list string;
  sigStringFn : http.Header → list string → string * option error
}.

Definition KeyId (v : t) : string := kId v.

Definition macVerify (v : t) (m : macer) (pKey : Key) : option error :=
  match assertBytes pKey with
  | None => Some ErrMacPublicKeyType
  | Some key =>
      match sigStringFn v (header v) (headers v) with
      | (_, Some err) => Some err
      | (sigString, None) =>
          match base64.DecodeString (signature v) with
          | (_, Some err) => Some err
          | (actualMAC, None) =>
              match macer_Equal m sigString actualMAC key with
              | (_, Some err) => Some err
              | (false, None) => Some ErrInvalidSignature
              | (true, None) => None
              end
          end
      end
  end.

Definition asymmVerify (v : t) (s : signer) (pKey : Key) : option error :=
  match sigStringFn v (header v) (headers v) with
  | (_, Some err) => Some err
  | (toHash, None) =>
      match base64.DecodeString (signature v) with
      | (_, Some err) => Some err
      | (sig, None) =>
          match signer_Verify s pKey toHash sig with
          | Some err => Some err
          | None => None
          end
      end
  end.

Section Registry.

(** The two lookups of the algorithm registry are in a file that is absent;
    they are parameters here.  [None] stands for a lookup that returns an
    error. *)
Variable signerFromString : string → option signer.
Variable macerFromString : string → option macer.

Definition Verify (v : t) (pKey : Key) (algo : string) : option error :=
  match signerFromString algo with
  | Some s => asymmVerify v s pKey
  | None =>
      match macerFromString algo with
      | Some m => macVerify v m pKey
      | None => Some (ErrNoCrypto algo)
      end
  end.

End Registry.

End verifier.

Definition newVerifier (h : http.Header)
    (sigStringFn : http.Header → list string → string * option error)
    : option verifier.t * option error :=
  match getSignatureScheme h with
  | (_, Some err) => (None, Some err)
  | (s, None) =>
      let c := getSignatureComponents s in
      match c_err c with
      | Some err => (None, Some err)
      | None => (Some (verifier.mk h (c_kId c) (c_sig c) (c_headers c) sigStringFn), None)
      end
  end.

(** Modelled from the spec: the constructor of a verifier for a request (the
    file that declares it is absent): the verifier is built from the
    request's headers and canonicalizes with the request's own method and
    URL as the request target. *)
Definition NewVerifier (r : http.Request) : option verifier.t * option error :=
  newVerifier (http.ReqHeader r)
    (λ h toInclude, signatureString h toInclude (addRequestTarget r)).

(** * The vocabulary of the statements *)

(** ** Buffers: the vocabulary of the lemmas on writes *)

Module buffer_spec.
Import bytes.

(** The slice lies within its array, and the array is allocated. *)
Definition wf (h : Arena) (b : Buffer) : Prop :=
  len b ≤ length (array h b) ∧
  match buf b with Some p => p < length h | None => True end.

(** The bytes of the slice. *)
Definition contents (h : Arena) (b : Buffer) : list ascii :=
  take (len b) (array h b).

(** [writes m x]: run on a well-formed buffer, [m] appends [x] to it. *)
Definition writes (m : Buffer → M Buffer) (x : string) : Prop :=
  ∀ h b, wf h b →
    ∃ b' h', m b h = (b', h') ∧ wf h' b' ∧
      contents h' b' = contents h b ++ list_ascii_of_string x.

(** [yields k y]: run on a well-formed buffer, [k] returns the bytes of the
    buffer followed by [y]. *)
Definition yields (k : Buffer → M string) (y : string) : Prop :=
  ∀ h b, wf h b →
    (k b h).1 = string_of_list_ascii (contents h b ++ list_ascii_of_string y).

(** [returns fn e]: called with a copy of a well-formed buffer, [fn] returns
    [e] and leaves the caller's buffer with the bytes it had. *)
Definition returns (fn : requestTargetFn) (e : option error) : Prop :=
  ∀ h b, wf h b →
    ∃ h', fn b h = (e, h') ∧ wf h' b ∧ contents h' b = contents h b.

(** A chain of writes through a copy [w] of (or a successor of a copy of)
    the buffer [b]. *)
Definition shadows (m : Buffer → M Buffer) : Prop :=
  ∀ h b w, wf h b → wf h w → (buf b = buf w → len b ≤ len w) →
    ∃ w' h', m w h = (w', h') ∧ wf h' b ∧ contents h' b = contents h b ∧
      wf h' w' ∧ (buf b = buf w' → len b ≤ len w').

End buffer_spec.

(** The double quote that encloses every parameter value. *)
Definition quote : string := parameterValueDelimiter.

(** The value [setSignatureHeader] adds, as one expression. *)
Definition serialize (pubKeyId algo : string) (headers : list string)
    (enc : string) : string :=
  "keyId=" +:+ quote +:+ pubKeyId +:+ quote +:+
  ",algorithm=" +:+ quote +:+ algo +:+ quote +:+
  ",headers=" +:+ quote
    +:+ strings.Join (strings.ToLower <$> headers) " " +:+ quote +:+
  ",signature=" +:+ quote +:+ enc +:+ quote.

(** What one component contributes, given the error [e] the request-target
    function returns ([None]: it returns no error): the text that ends up in
    the caller's buffer, or the error that ends the loop.  The
    request-target function writes to a copy of the buffer, so the text it
    contributes to the caller's buffer is empty. *)
Definition component (values : http.Header) (e : option error) (i : string)
    : string + error :=
  let i := strings.ToLower i in
  if decide (i = RequestTarget) then
    match e with Some err => inr err | None => inl "" end
  else
    match values !! textproto.CanonicalMIMEHeaderKey i with
    | None => inr (ErrMissingHeader i)
    | Some hv =>
        inl (i +:+ ": " +:+ strings.Join (strings.TrimSpace <$> hv) ", ")
    end.

Fixpoint canonicalLines (values : http.Header) (e : option error)
    (include : list string) : list string + error :=
  match include with
  | [] => inl []
  | i :: rest =>
      match component values e i with
      | inr err => inr err
      | inl l =>
          match canonicalLines values e rest with
          | inr err => inr err
          | inl ls => inl (l :: ls)
          end
      end
  end.

(** The request of the specification's example. *)
Definition exampleDate : string := "Tue, 07 Jun 2014 20:51:35 GMT".

Definition exampleHeader : http.Header := {["Date" := [exampleDate]]}.

Definition exampleRequest : http.Request :=
  http.mkRequest "GET" "/foo" exampleHeader.

(** The canonical string the specification expects for the example. *)
Definition exampleExpected : string :=
  "(request-target): get /foo" +:+ headersDelimiter +:+ "date: " +:+ exampleDate.

(** [carries s]: [s] holds one of the three parameter names. *)
Definition carries (s : string) : Prop :=
  strings.Contains s "keyId" = true ∨ strings.Contains s "headers" = true
  ∨ strings.Contains s "signature" = true.

(** [appended_one h h' target]: [h'] is [h] with one more value at the end of
    the values of the header [target], and nothing else changed. *)
Definition appended_one (h h' : http.Header) (target : string) : Prop :=
  let k := textproto.CanonicalMIMEHeaderKey target in
  (∃ v, h' !! k = Some (default [] (h !! k) ++ [v]))
  ∧ ∀ k', k' ≠ k → h' !! k' = h !! k'.

(** The outcome of a sign operation on a header map. *)
Definition all_or_nothing (h h' : http.Header) (target : string)
    (err : option error) : Prop :=
  match err with
  | None => appended_one h h' target
  | Some _ => h' = h
  end.

(** The key of a parameter token: the text before its first [=]. *)
Definition paramKey (p : string) : string :=
  nth 0 (strings.SplitN p parameterKVSeparater 2) "".

(** A token that splits in a key and a value. *)
Definition wellFormedParam (p : string) : Prop :=
  length (strings.SplitN p parameterKVSeparater 2) = 2.

#[global] Instance wellFormedParam_dec (p : string) : Decision (wellFormedParam p).
Proof. unfold wellFormedParam. apply _. Defined.

(** Close a decidable, closed goal by evaluating its decision procedure. *)
Ltac by_compute :=
  lazymatch goal with
  | |- ?P => apply (bool_decide_unpack P); vm_compute; exact I
  end.

(** A header value with a key id and a signature and nothing else. *)
Definition exampleParams : string :=
  "keyId=" +:+ quote +:+ "a" +:+ quote +:+ ",signature=" +:+ quote +:+ "b" +:+ quote.

(** The four names the parser knows. *)
Definition recognized (name : string) : Prop :=
  name ∈ [keyIdParameter; algorithmParameter; headersParameter; signatureParameter].

(** The key of the token is [name] up to case and surrounding white space,
    and is not [name] itself. *)
Definition variantOf (name p : string) : Prop :=
  paramKey p ≠ name
  ∧ strings.ToLower (strings.TrimSpace (paramKey p)) = strings.ToLower name.

#[global] Instance variantOf_dec (name p : string) : Decision (variantOf name p).
Proof. unfold variantOf. apply _. Defined.

(** The example of the claim: a space after the comma. *)
Definition exampleSpacedParams : string :=
  "keyId=" +:+ quote +:+ "a" +:+ quote +:+ ", signature=" +:+ quote +:+ "b" +:+ quote.

(** The token [headers=] followed by two double quotes. *)
Definition emptyHeadersParam : string :=
  headersParameter +:+ parameterKVSeparater +:+ quote +:+ quote.

(** A header value with an empty headers parameter. *)
Definition exampleEmptyHeaders : string :=
  "keyId=" +:+ quote +:+ "a" +:+ quote +:+ "," +:+ emptyHeadersParam
  +:+ ",signature=" +:+ quote +:+ "b" +:+ quote.




(** A header map with two occurrences of one header. *)
Definition exampleTwoValues : http.Header :=
  http.Add (http.Add (http.Add ∅ "x-tag" " a ") "X-Tag" "b") "Host" "example.org".

(** Every byte of the string satisfies [P]. *)
Fixpoint allBytes (P : ascii → bool) (s : string) : bool :=
  match s with
  | "" => true
  | String c r => P c && allBytes P r
  end.

(** The string is ASCII: every byte is below 128 ([utf8.RuneSelf]).  On such
    strings Go's [strings.ToLower] and [strings.TrimSpace] work on bytes, as
    they are embedded. *)
Definition isASCII (s : string) : Prop :=
  allBytes (λ c, bool_decide (nat_of_ascii c < 128)) s = true.

#[global] Instance isASCII_dec (s : string) : Decision (isASCII s).
Proof. unfold isASCII. apply _. Defined.

(** The byte [c] occurs in the string. *)
Fixpoint hasByte (c : ascii) (s : string) : bool :=
  match s with
  | "" => false
  | String d r => if decide (d = c) then true else hasByte c r
  end.

(** The bytes an encoding is made of. *)
Definition isBase64Byte (c : ascii) : bool :=
  bool_decide (c ∈ "="%char :: base64.alphabet).

(** Linear arithmetic with division and remainder by constants. *)
Ltac lia_div := zify; Z.to_euclidean_division_equations; lia.

(** A header name that the serialized list of headers can carry: no comma,
    no space, no double quote. *)
Definition plainName (n : string) : Prop :=
  hasByte "," n = false ∧ hasByte " " n = false ∧ hasByte "034" n = false.

#[global] Instance plainName_dec (n : string) : Decision (plainName n).
Proof. unfold plainName. apply _. Defined.

(** The list of components a signer with the list [headers] signs. *)
Definition signedList (headers : list string) : list string :=
  if decide (length headers = 0) then defaultHeaders else headers.

(** The four tokens of a serialized header. *)
Definition tokens (pubKeyId algo : string) (headers : list string)
    (enc : string) : list string :=
  [ "keyId" +:+ "=" +:+ (quote +:+ pubKeyId +:+ quote);
    "algorithm" +:+ "=" +:+ (quote +:+ algo +:+ quote);
    "headers" +:+ "=" +:+
      (quote +:+ strings.Join (strings.ToLower <$> headers) " " +:+ quote);
    "signature" +:+ "=" +:+ (quote +:+ enc +:+ quote) ].

(** The slot that is not the signer's. *)
Definition otherScheme (target : SignatureScheme) : SignatureScheme :=
  if decide (target = Signature) then Authorization else Signature.

(** A MAC capability that accepts, under the key, what it signed under the
    key, and whose signatures are not empty. *)
Definition macAccepts (mc : macer) (key : string) : Prop :=
  ∀ data sig, macer_Sign mc data key = (sig, None) →
    sig ≠ "" ∧ macer_Equal mc data sig key = (true, None).

(** The same for an asymmetric capability and a pair of keys. *)
Definition signerAccepts (sc : signer) (rand : list ascii) (priv pub : Key)
    : Prop :=
  ∀ data sig, signer_Sign sc rand priv data = (sig, None) →
    sig ≠ "" ∧ signer_Verify sc pub data sig = None.

(** A MAC for the examples: the code is the key followed by the data. *)
Definition plainMac : macer :=
  mkMacer (λ data key, (key +:+ data, None))
    (λ data mac key, (bool_decide (mac = key +:+ data), None))
    "plain".

(** An asymmetric capability for the examples: every key signs the data with
    a mark after it, and every key verifies it. *)
Definition plainSigner : signer :=
  mkSigner (λ rand priv data, (data +:+ "!", None))
    (λ pub data sig,
       if decide (sig = data +:+ "!") then None
       else Some (ErrCapability "verification error"))
    "plain-sign".

(** The registry of the examples. *)
Definition exampleMacs (algo : string) : option macer :=
  if decide (algo = "plain") then Some plainMac else None.

Definition exampleSigners (algo : string) : option signer :=
  if decide (algo = "plain-sign") then Some plainSigner else None.

(** The signers of the examples: both sign the request target and the date
    into the Signature header. *)
Definition exampleMacSigner : macSigner.t :=
  macSigner.mk plainMac ["(request-target)"; "Date"] Signature.

Definition exampleAsymmSigner : asymmSigner.t :=
  asymmSigner.mk plainSigner ["(request-target)"; "Date"] Signature.

(** The example request, signed by alice. *)
Definition signedByAlice : http.Request :=
  (macSigner.SignRequest exampleMacSigner (BytesKey "secret") "alice" exampleRequest).1.

(** The request signed by alice, signed by bob as well. *)
Definition signedByBoth : http.Request :=
  (macSigner.SignRequest exampleMacSigner (BytesKey "secret2") "bob" signedByAlice).1.

(** The parameters written for an empty list of headers: the headers
    parameter names the date. *)
Definition defaultParams (pubKeyId algo enc : string) : string :=
  "keyId=" +:+ quote +:+ pubKeyId +:+ quote +:+
  ",algorithm=" +:+ quote +:+ algo +:+ quote +:+
  ",headers=" +:+ quote +:+ "date" +:+ quote +:+
  ",signature=" +:+ quote +:+ enc +:+ quote.

(** The canonical string of the date alone: one line, no line feed. *)
Definition dateLine (vs : list string) : string :=
  "date: " +:+ strings.Join (strings.TrimSpace <$> vs) ", ".

(** ** Vocabulary of the further properties *)

(** The key of the header map a component is looked up under. *)
Definition headerKey (i : string) : string :=
  textproto.CanonicalMIMEHeaderKey (strings.ToLower i).

(** The occurrences of a header, each without the white space around it;
    [None] when the header is not in the map. *)
Definition trimmedValues (values : http.Header) (k : string)
    : option (list string) :=
  fmap (M:=option) (fmap (M:=list) strings.TrimSpace) (values !! k).

(** The example header map with white space around the date. *)
Definition examplePaddedHeader : http.Header :=
  {["Date" := ["  " +:+ exampleDate +:+ " "]]}.

(** The example request with another method and another URL. *)
Definition exampleOtherRequest : http.Request :=
  http.mkRequest "POST" "/bar?x=1" exampleHeader.

(** The response of the examples. *)
Definition exampleResponse : http.ResponseWriter :=
  http.mkResponseWriter exampleHeader.

(** The occurrences of a header as one value: trimmed and joined as the
    canonical string has them. *)
Definition folded (vs : list string) : string :=
  strings.Join (strings.TrimSpace <$> vs) headerValueDelimiter.

(** A header value in which the key id comes twice and, between the two, an
    algorithm and a parameter the parser does not know. *)
Definition exampleRepeatedParams : string :=
  "keyId=" +:+ quote +:+ "a" +:+ quote +:+ ",algorithm=" +:+ quote +:+ "x" +:+ quote
  +:+ ",created=1" +:+ ",keyId=b" +:+ ",signature=" +:+ quote +:+ "c" +:+ quote.

(** The verifier of the example request signed by alice, with the parameters
    read from its Signature header. *)
Definition exampleVerifier : verifier.t :=
  let c := getSignatureComponents
             (http.Get (http.ReqHeader signedByAlice) Signature) in
  verifier.mk (http.ReqHeader signedByAlice) (c_kId c) (c_sig c) (c_headers c)
    (λ h toInclude, signatureString h toInclude (addRequestTarget signedByAlice)).

(** A MAC capability that rejects, under the key [key'], what it signed
    under the key [key], and whose signatures are not empty. *)
Definition macRejects (mc : macer) (key key' : string) : Prop :=
  ∀ data sig, macer_Sign mc data key = (sig, None) →
    sig ≠ "" ∧ macer_Equal mc data sig key' = (false, None).

(** * Properties *)

(** ** Strings *)

Lemma app_cons (c : ascii) (s t : string) :
  String c s +:+ t = String c (s +:+ t).
Proof. reflexivity. Qed.

Lemma app_empty_l (s : string) : "" +:+ s = s.
Proof. reflexivity. Qed.

Lemma app_empty_r (s : string) : s +:+ "" = s.
Proof. induction s as [|c s IH]; [done | by rewrite app_cons, IH]. Qed.

Lemma app_assoc_s (s1 s2 s3 : string) : (s1 +:+ s2) +:+ s3 = s1 +:+ s2 +:+ s3.
Proof. induction s1 as [|c s1 IH]; [done | by rewrite !app_cons, IH]. Qed.

Lemma list_of_app (s1 s2 : string) :
  list_ascii_of_string (s1 +:+ s2)
  = list_ascii_of_string s1 ++ list_ascii_of_string s2.
Proof.
  induction s1 as [|c s1 IH]; [done|]. rewrite app_cons. simpl. by rewrite IH.
Qed.

Lemma length_list_of (s : string) :
  length (list_ascii_of_string s) = String.length s.
Proof. induction s as [|c s IH]; simpl; [done | by rewrite IH]. Qed.

(** ** Buffers: what a write does to the writer and to the other buffers *)

Module buffer_facts.
Import bytes buffer_spec.

Lemma wf_zero (h : Arena) : wf h zero.
Proof. split; simpl; [lia | done]. Qed.

Lemma contents_zero (h : Arena) : contents h zero = [].
Proof. done. Qed.

(** A write through [w] appends to [w]; any well-formed buffer [b] that
    either lives in another array or is no longer than [w] keeps its
    bytes, and stays in that position relative to the new [w]. *)
Lemma WriteString_frame (h h' : Arena) (b w w' : Buffer) (s : string) :
  wf h b → wf h w → (buf b = buf w → len b ≤ len w) →
  WriteString w s h = (w', h') →
  wf h' b ∧ contents h' b = contents h b ∧
  wf h' w' ∧ contents h' w' = contents h w ++ list_ascii_of_string s ∧
  (buf b = buf w' → len b ≤ len w').
Proof.
  intros [Hb1 Hb2] [Hw1 Hw2] Hrel. unfold WriteString.
  set (data := list_ascii_of_string s). set (a := array h w) in *.
  case_decide as Hfit.
  - destruct (buf w) as [p|] eqn:Hp.
    + intros [= <- <-].
      assert (Ha : h !! p = Some a).
      { subst a. unfold array. rewrite Hp.
        destruct (h !! p) eqn:E; [done|].
        apply lookup_ge_None in E. lia. }
      assert (Hlen : length (take (len w) a ++ data ++ drop (len w + length data) a)
                     = length a).
      { rewrite !length_app, length_take, length_drop. lia. }
      assert (Harr_w : array (<[p:=take (len w) a ++ data ++ drop (len w + length data) a]> h)
                         {| buf := Some p; len := len w + length data |}
                       = take (len w) a ++ data ++ drop (len w + length data) a).
      { unfold array; cbn [buf]. rewrite list_lookup_insert_eq; [done|lia]. }
      assert (Hb : wf (<[p:=take (len w) a ++ data ++ drop (len w + length data) a]> h) b
                   ∧ contents (<[p:=take (len w) a ++ data ++ drop (len w + length data) a]> h) b
                     = contents h b).
      { unfold wf, contents, array in *. destruct (buf b) as [q|] eqn:Hq.
        - destruct (decide (q = p)) as [->|Hne].
          + rewrite list_lookup_insert_eq by lia. rewrite Ha in *. simpl in *.
            specialize (Hrel eq_refl).
            rewrite Hlen, length_insert. split; [done|].
            rewrite take_app_le by (rewrite length_take; lia).
            rewrite take_take. f_equal. lia.
          + rewrite list_lookup_insert_ne by done.
            rewrite length_insert. done.
        - done. }
      destruct Hb as [Hb Hc]. split; [done|]. split; [done|].
      split.
      { unfold wf. rewrite Harr_w, Hlen. cbn [buf len]. rewrite length_insert. lia. }
      split.
      { unfold contents. rewrite Harr_w. cbn [buf len].
        fold a. rewrite app_assoc.
        rewrite take_app_le by (rewrite length_app, length_take; lia).
        rewrite take_ge by (rewrite length_app, length_take; lia). done. }
      cbn [buf len]. intros Heq. specialize (Hrel Heq). lia.
    + intros [= <- <-].
      assert (Hn : length data = 0) by (subst a; unfold array in *; rewrite Hp in *; simpl in *; lia).
      assert (Hd : data = []) by (by destruct data).
      repeat split; try done.
      * by rewrite Hp.
      * by rewrite Hd, app_nil_r.
      * by rewrite Hp.
  - intros [= <- <-].
    set (arr := take (len w) a ++ data ++ replicate _ _).
    assert (Hb : wf (h ++ [arr]) b ∧ contents (h ++ [arr]) b = contents h b).
    { unfold wf, contents, array in *. destruct (buf b) as [q|] eqn:Hq; [|done].
      rewrite lookup_app_l by done. rewrite length_app. split; [split; [done | lia] | done]. }
    destruct Hb as [Hb Hc]. split; [done|]. split; [done|].
    assert (Harr : array (h ++ [arr]) {| buf := Some (length h); len := len w + length data |} = arr).
    { unfold array; cbn [buf]. rewrite lookup_app_r by lia.
      by rewrite Nat.sub_diag. }
    split.
    { unfold wf. rewrite Harr. cbn [buf len]. rewrite length_app.
      split; [|simpl; lia].
      subst arr. rewrite !length_app, length_take. lia. }
    split.
    { unfold contents. rewrite Harr. cbn [buf len]. subst arr. rewrite app_assoc.
      rewrite take_app_le by (rewrite length_app, length_take; lia).
      rewrite take_ge by (rewrite length_app, length_take; lia). done. }
    cbn [buf len]. intros Heq. rewrite Heq in Hb2. lia.
Qed.

Lemma WriteString_spec (h : Arena) (w : Buffer) (s : string) :
  wf h w →
  ∃ w' h', WriteString w s h = (w', h') ∧ wf h' w' ∧
    contents h' w' = contents h w ++ list_ascii_of_string s.
Proof.
  intros Hw. destruct (WriteString w s h) as [w' h'] eqn:E.
  exists w', h'. split; [done|].
  destruct (WriteString_frame h h' w w w' s Hw Hw (λ _, le_n _) E) as (_&_&?&?&_).
  done.
Qed.

Lemma writes_WriteString (s : string) : writes (λ b, WriteString b s) s.
Proof. intros h b Hb. by apply WriteString_spec. Qed.

Lemma writes_ret : writes (λ b, mret b) "".
Proof.
  intros h b Hb. exists b, h. split; [done|]. split; [done|].
  by rewrite app_nil_r.
Qed.

Lemma writes_bind (m1 m2 : Buffer → M Buffer) (x y : string) :
  writes m1 x → writes m2 y → writes (λ b, b' ← m1 b; m2 b') (x +:+ y).
Proof.
  intros H1 H2 h b Hb.
  destruct (H1 h b Hb) as (b1 & h1 & E1 & Hb1 & C1).
  destruct (H2 h1 b1 Hb1) as (b2 & h2 & E2 & Hb2 & C2).
  exists b2, h2. unfold mbind, M_bind. rewrite E1, E2.
  split; [done|]. split; [done|].
  by rewrite C2, C1, list_of_app, app_assoc.
Qed.

Lemma writes_ext (m : Buffer → M Buffer) (x y : string) :
  x = y → writes m x → writes m y.
Proof. by intros ->. Qed.

Lemma yields_String : yields bytes.String "".
Proof.
  intros h b Hb. unfold bytes.String, contents. cbn [fst list_ascii_of_string].
  by rewrite app_nil_r.
Qed.

Lemma yields_bind (m : Buffer → M Buffer) (k : Buffer → M string)
    (x y : string) :
  writes m x → yields k y → yields (λ b, b' ← m b; k b') (x +:+ y).
Proof.
  intros H1 H2 h b Hb.
  destruct (H1 h b Hb) as (b1 & h1 & E1 & Hb1 & C1).
  unfold mbind, M_bind. rewrite E1, (H2 h1 b1 Hb1), C1, list_of_app.
  by rewrite app_assoc.
Qed.

Lemma run_yields (k : Buffer → M string) (y : string) :
  yields k y → run (k zero) = y.
Proof.
  intros H. unfold run. rewrite (H [] zero (wf_zero [])).
  rewrite contents_zero. apply string_of_list_ascii_of_string.
Qed.

Lemma run_WriteString_yields (s : string) (k : Buffer → M string) (y : string) :
  yields k y → run (WriteString zero s ≫= k) = s +:+ y.
Proof.
  intros H.
  apply (run_yields (λ b, b' ← WriteString b s; k b')).
  apply yields_bind; [apply writes_WriteString | done].
Qed.

End buffer_facts.

(** ** The writing loops as joins *)

Section Loops.
Import bytes buffer_spec buffer_facts.

Lemma Join_cons (x : string) (r : list string) (sep : string) :
  r ≠ [] → strings.Join (x :: r) sep = x +:+ sep +:+ strings.Join r sep.
Proof. by destruct r. Qed.

Lemma writeHeaderNames_writes (headers : list string) (n i : nat) :
  n = i + length headers →
  writes (writeHeaderNames n i headers)
    (strings.Join (strings.ToLower <$> headers) headerParameterValueDelim).
Proof.
  revert i. induction headers as [|x r IH]; intros i Hn.
  - apply writes_ret.
  - cbn [writeHeaderNames]. destruct r as [|y r'].
    + case_decide as Hd; [simpl in Hn; lia|].
      eapply writes_ext; [|apply writes_bind; [apply writes_WriteString|]].
      2:{ apply (writes_bind (λ b, mret b) (λ b, mret b) "" "");
          apply writes_ret. }
      simpl. by rewrite app_empty_r.
    + case_decide as Hd; [|simpl in Hn; lia].
      eapply writes_ext; [|apply writes_bind; [apply writes_WriteString|]].
      2:{ apply writes_bind; [apply writes_WriteString|].
          apply (IH (S i)). simpl in *. lia. }
      rewrite (fmap_cons _ x). symmetry. apply Join_cons. by rewrite fmap_cons.
Qed.

Lemma writeValues_writes (hv : list string) (n i : nat) :
  n = i + length hv →
  writes (writeValues n i hv)
    (strings.Join (strings.TrimSpace <$> hv) headerValueDelimiter).
Proof.
  revert i. induction hv as [|x r IH]; intros i Hn.
  - apply writes_ret.
  - cbn [writeValues]. destruct r as [|y r'].
    + case_decide as Hd; [simpl in Hn; lia|].
      eapply writes_ext; [|apply writes_bind; [apply writes_WriteString|]].
      2:{ apply (writes_bind (λ b, mret b) (λ b, mret b) "" "");
          apply writes_ret. }
      simpl. by rewrite app_empty_r.
    + case_decide as Hd; [|simpl in Hn; lia].
      eapply writes_ext; [|apply writes_bind; [apply writes_WriteString|]].
      2:{ apply writes_bind; [apply writes_WriteString|].
          apply (IH (S i)). simpl in *. lia. }
      rewrite (fmap_cons _ x). symmetry. apply Join_cons. by rewrite fmap_cons.
Qed.

End Loops.

(** ** The serialized signature header *)

Section Serialize.
Import bytes buffer_spec buffer_facts.

Lemma setSignatureHeader_serialize (h : http.Header)
    (targetHeader pubKeyId algo enc : string) (headers : list string) :
  setSignatureHeader h targetHeader pubKeyId algo enc headers
  = http.Add h targetHeader
      (serialize pubKeyId algo
         (if decide (length headers = 0) then defaultHeaders else headers) enc).
Proof.
  unfold setSignatureHeader. f_equal.
  set (hs := if decide (length headers = 0) then defaultHeaders else headers).
  erewrite run_WriteString_yields.
  2:{ repeat (eapply yields_bind;
        [first [apply writes_WriteString
               | apply (writeHeaderNames_writes hs (length hs) 0); done] |]).
      apply yields_String. }
  unfold serialize, quote. rewrite app_empty_r. reflexivity.
Qed.

End Serialize.

(** ** The canonical string as a list of lines *)

Section Canonical.
Import bytes buffer_spec buffer_facts.

Lemma requestTargetNotPermitted_returns :
  returns requestTargetNotPermitted (Some ErrRequestTargetNotPermitted).
Proof. intros h b Hb. by exists h. Qed.

Lemma shadows_WriteString (s : string) : shadows (λ w, WriteString w s).
Proof.
  intros h b w Hb Hw Hrel. destruct (WriteString w s h) as [w' h'] eqn:E.
  exists w', h'. split; [done|].
  destruct (WriteString_frame h h' b w w' s Hb Hw Hrel E) as (?&?&?&_&?).
  done.
Qed.

Lemma shadows_bind (m1 m2 : Buffer → M Buffer) :
  shadows m1 → shadows m2 → shadows (λ w, w' ← m1 w; m2 w').
Proof.
  intros H1 H2 h b w Hb Hw Hrel.
  destruct (H1 h b w Hb Hw Hrel) as (w1 & h1 & E1 & Hb1 & C1 & Hw1 & R1).
  destruct (H2 h1 b w1 Hb1 Hw1 R1) as (w2 & h2 & E2 & Hb2 & C2 & Hw2 & R2).
  exists w2, h2. unfold mbind, M_bind. rewrite E1, E2.
  split; [done|]. split; [done|]. split; [by rewrite C2|]. by split.
Qed.

(** The request target is written to the copy: no error, and nothing new
    in the caller's buffer. *)
Lemma addRequestTarget_returns (r : http.Request) :
  returns (addRequestTarget r) None.
Proof.
  intros h b Hb.
  pose proof (shadows_bind _ _ (shadows_WriteString RequestTarget)
    (shadows_bind _ _ (shadows_WriteString headerFieldDelimiter)
      (shadows_bind _ _ (shadows_WriteString (strings.ToLower (http.Method r)))
        (shadows_bind _ _ (shadows_WriteString requestTargetSeparator)
          (shadows_WriteString (http.URL r)))))) as H.
  destruct (H h b b Hb Hb (λ _, le_n _)) as (w' & h' & E & Hb' & C & _).
  exists h'. split; [|done].
  unfold addRequestTarget. unfold mbind, M_bind in *.
  destruct (WriteString b RequestTarget h) as [w1 h1].
  destruct (WriteString w1 headerFieldDelimiter h1) as [w2 h2].
  destruct (WriteString w2 (strings.ToLower (http.Method r)) h2) as [w3 h3].
  destruct (WriteString w3 requestTargetSeparator h3) as [w4 h4].
  destruct (WriteString w4 (http.URL r) h4) as [w5 h5].
  by injection E as _ ->.
Qed.

Lemma canonicalLines_length (values : http.Header) (e : option error)
    (include ls : list string) :
  canonicalLines values e include = inl ls → length ls = length include.
Proof.
  revert ls. induction include as [|i rest IH]; intros ls; simpl.
  - by intros [= <-].
  - destruct (component values e i); [|done].
    destruct (canonicalLines values e rest); [|done].
    intros [= <-]. simpl. f_equal. by apply IH.
Qed.

(** One turn of the loop, as an equation on the arena-passing function. *)
Lemma writeComponents_cons (values : http.Header) (fn : requestTargetFn)
    (L n : nat) (i : string) (rest : list string) (b : Buffer) (h : Arena) :
  writeComponents values fn L n (i :: rest) b h
  = let '(r, h1) :=
      (if decide (strings.ToLower i = RequestTarget) then
         err ← fn b; mret (b, err)
       else
         match values !! textproto.CanonicalMIMEHeaderKey (strings.ToLower i) with
         | None => mret (b, Some (ErrMissingHeader (strings.ToLower i)))
         | Some hv =>
             b ← WriteString b (strings.ToLower i);
             b ← WriteString b headerFieldDelimiter;
             b ← writeValues (length hv) 0 hv b;
             mret (b, None)
         end) h in
    match r.2 with
    | Some err => ((r.1, Some err), h1)
    | None =>
        let '(b2, h2) :=
          (if decide (Z.of_nat n < Z.of_nat L - 1)%Z
           then WriteString r.1 headersDelimiter else mret r.1) h1 in
        writeComponents values fn L (S n) rest b2 h2
    end.
Proof.
  cbn [writeComponents]. unfold mbind at 1. unfold M_bind at 1.
  match goal with
  | |- (let '(a, h') := ?x in _) = _ => destruct x as [[b1 [err|]] h1]
  end; [done|].
  cbn [fst snd]. unfold mbind at 1. unfold M_bind at 1. done.
Qed.

(** The component itself: the buffer after it and the text it added, or
    the error. *)
Lemma component_step (values : http.Header) (fn : requestTargetFn)
    (e : option error) (i : string) (b : Buffer) (h : Arena) :
  returns fn e → wf h b →
  ∃ b1 h1,
    (if decide (strings.ToLower i = RequestTarget) then
       err ← fn b; mret (b, err)
     else
       match values !! textproto.CanonicalMIMEHeaderKey (strings.ToLower i) with
       | None => mret (b, Some (ErrMissingHeader (strings.ToLower i)))
       | Some hv =>
           b ← WriteString b (strings.ToLower i);
           b ← WriteString b headerFieldDelimiter;
           b ← writeValues (length hv) 0 hv b;
           mret (b, None)
       end) h
    = ((b1, match component values e i with inl _ => None | inr err => Some err end), h1)
    ∧ ∀ l, component values e i = inl l →
        wf h1 b1 ∧ contents h1 b1 = contents h b ++ list_ascii_of_string l.
Proof.
  intros Hfn Hb. unfold component. case_decide as Hrt.
  - destruct (Hfn h b Hb) as (h1 & E & Hb1 & C).
    unfold mbind, M_bind. rewrite E. exists b, h1. destruct e as [err|].
    + done.
    + split; [done|]. intros l [= <-]. by rewrite C, app_nil_r.
  - destruct (values !! _) as [hv|] eqn:Hv.
    + pose proof (writes_bind _ _ _ _ (writes_WriteString (strings.ToLower i))
        (writes_bind _ _ _ _ (writes_WriteString headerFieldDelimiter)
           (writeValues_writes hv (length hv) 0 eq_refl))) as W.
      destruct (W h b Hb) as (b1 & h1 & E & Hb1 & C).
      exists b1, h1. unfold mbind, M_bind in *.
      destruct (WriteString b (strings.ToLower i) h) as [w1 g1].
      destruct (WriteString w1 headerFieldDelimiter g1) as [w2 g2].
      rewrite E. split; [done|]. by intros l [= <-].
    + by exists b, h.
Qed.

Lemma writeComponents_lines (values : http.Header) (fn : requestTargetFn)
    (e : option error) (include : list string) :
  returns fn e →
  ∀ (L n : nat) (b : Buffer) (h : Arena),
    L = n + length include → wf h b →
    ∃ b' h',
      writeComponents values fn L n include b h
      = ((b', match canonicalLines values e include with
              | inl _ => None | inr err => Some err end), h')
      ∧ ∀ ls, canonicalLines values e include = inl ls →
          wf h' b' ∧
          contents h' b'
          = contents h b ++ list_ascii_of_string (strings.Join ls headersDelimiter).
Proof.
  intros Hfn. induction include as [|i rest IH]; intros L n b h HL Hb.
  - exists b, h. split; [done|]. intros ls [= <-]. by rewrite app_nil_r.
  - rewrite writeComponents_cons.
    destruct (component_step values fn e i b h Hfn Hb) as (b1 & h1 & -> & H1).
    cbn [canonicalLines fst snd].
    destruct (component values e i) as [l|err]; [|by exists b1, h1].
    destruct (H1 l eq_refl) as [Hb1 C1].
    destruct rest as [|j rest'].
    + destruct (decide (Z.of_nat n < Z.of_nat L - 1)%Z) as [Hd|Hd];
        [simpl in HL; lia|].
      exists b1, h1. split; [done|]. by intros ls [= <-].
    + destruct (decide (Z.of_nat n < Z.of_nat L - 1)%Z) as [Hd|Hd];
        [|simpl in HL; lia].
      destruct (WriteString_spec h1 b1 headersDelimiter Hb1)
        as (b2 & h2 & -> & Hb2 & C2).
      destruct (IH L (S n) b2 h2 ltac:(simpl in *; lia) Hb2)
        as (b' & h' & -> & H').
      exists b', h'.
      destruct (canonicalLines values e (j :: rest')) as [ls|err] eqn:Hls;
        [|done].
      split; [done|]. intros ? [= <-].
      destruct (H' ls eq_refl) as [Hb' C']. split; [done|].
      rewrite C', C2, C1.
      assert (ls ≠ []) as Hne.
      { apply canonicalLines_length in Hls. by destruct ls. }
      rewrite (Join_cons _ _ _ Hne), !list_of_app.
      by rewrite !app_assoc.
Qed.

Lemma signatureString_lines (values : http.Header) (include : list string)
    (fn : requestTargetFn) (e : option error) :
  returns fn e →
  signatureString values include fn
  = match canonicalLines values e
            (if decide (length include = 0) then defaultHeaders else include) with
    | inl ls => (strings.Join ls headersDelimiter, None)
    | inr err => ("", Some err)
    end.
Proof.
  intros Hfn. unfold signatureString.
  set (inc := if decide (length include = 0) then defaultHeaders else include).
  destruct (writeComponents_lines values fn e inc Hfn (length inc) 0 zero []
              eq_refl (wf_zero [])) as (b' & h' & E & H).
  unfold run, mbind, M_bind. rewrite E. cbn [fst snd].
  destruct (canonicalLines values e inc) as [ls|err]; [|done].
  destruct (H ls eq_refl) as [Hb' C].
  unfold bytes.String, mret, M_ret. cbn [fst]. fold (contents h' b').
  rewrite C, contents_zero. f_equal. apply string_of_list_ascii_of_string.
Qed.

(** The request-target function is not called for a list without the
    pseudo-component. *)
Lemma writeComponents_fn_irrelevant (values : http.Header)
    (fn fn' : requestTargetFn) (include : list string) :
  Forall (λ i, strings.ToLower i ≠ RequestTarget) include →
  ∀ L n b h,
    writeComponents values fn L n include b h
    = writeComponents values fn' L n include b h.
Proof.
  induction 1 as [|i rest Hi Hrest IH]; intros L n b h; [done|].
  rewrite !writeComponents_cons.
  destruct (decide (strings.ToLower i = RequestTarget)) as [?|_]; [done|].
  match goal with
  | |- (let '(r, h1) := ?x in _) = _ => destruct x as [[b1 [err|]] h1]
  end; [done|].
  cbn [fst snd].
  match goal with
  | |- (let '(b2, h2) := ?x in _) = _ => destruct x as [b2 h2]
  end.
  apply IH.
Qed.

Lemma signatureString_fn_irrelevant (values : http.Header)
    (fn fn' : requestTargetFn) (include : list string) :
  include ≠ [] →
  Forall (λ i, strings.ToLower i ≠ RequestTarget) include →
  signatureString values include fn = signatureString values include fn'.
Proof.
  intros Hne Hall. unfold signatureString.
  destruct (decide (length include = 0)) as [H0|_]; [by destruct include|].
  unfold run, mbind, M_bind.
  by rewrite (writeComponents_fn_irrelevant values fn fn' include Hall).
Qed.

End Canonical.

(** ** The example of the specification *)

(** For every request, header map and component list, the canonical string
    of a request is the join of the components' lines in which a
    request-target component stands for an EMPTY line: what
    [addRequestTarget] writes goes to a copy of the buffer. *)
Lemma signatureString_request (r : http.Request) (values : http.Header)
    (include : list string) :
  signatureString values include (addRequestTarget r)
  = match canonicalLines values None
            (if decide (length include = 0) then defaultHeaders else include) with
    | inl ls => (strings.Join ls headersDelimiter, None)
    | inr err => ("", Some err)
    end.
Proof. apply signatureString_lines, addRequestTarget_returns. Qed.

(** C1 (the code departs from the claim).  On the example of the
    specification, a GET request to /foo with a Date header and the
    component list (request-target), date, [signatureString] returns a line
    feed followed by the date line: the request-target line is not in the
    output, which therefore differs from the canonical string the
    specification gives. *)
Theorem C1_request_target_line_is_lost :
  signatureString exampleHeader ["(request-target)"; "date"]
      (addRequestTarget exampleRequest)
    = (headersDelimiter +:+ "date: " +:+ exampleDate, None)
  ∧ headersDelimiter +:+ "date: " +:+ exampleDate ≠ exampleExpected.
Proof. split; [by vm_compute | by vm_compute]. Qed.

(** ** C7: the serialized header *)



(** ** C4: the scheme locator *)

Lemma carries_spec (s : string) : carries s ↔ hasSignatureParameters s = true.
Proof.
  unfold carries, hasSignatureParameters, keyIdParameter, headersParameter,
    signatureParameter.
  rewrite !orb_true_iff. tauto.
Qed.

(** C4.  With [s] the value of the Signature slot and [a] the value of the
    Authorization slot: both carry parameters, the locator fails with the
    ambiguity error; neither does, it fails with the missing-scheme error;
    otherwise it returns the value of the one slot that carries them. *)
Theorem C4_scheme_locator (h : http.Header) :
  let s := http.Get h Signature in
  let a := http.Get h Authorization in
  (carries s ∧ carries a → getSignatureScheme h = ("", Some ErrBothSchemes))
  ∧ (¬ carries s ∧ ¬ carries a → getSignatureScheme h = ("", Some ErrNeitherScheme))
  ∧ (carries s ∧ ¬ carries a → getSignatureScheme h = (s, None))
  ∧ (¬ carries s ∧ carries a → getSignatureScheme h = (a, None)).
Proof.
  intros s a. unfold getSignatureScheme. fold s a.
  rewrite !carries_spec.
  destruct (hasSignatureParameters s), (hasSignatureParameters a); simpl;
    repeat split; intros [? ?]; congruence.
Qed.

(** ** C6: the default list of signed headers *)

(** With an empty list, a header map with a Date entry gives the date line,
    whatever the request-target function. *)
Lemma signatureString_default_present (values : http.Header)
    (fn : requestTargetFn) (vs : list string) :
  values !! "Date" = Some vs →
  signatureString values [] fn = (dateLine vs, None).
Proof.
  intros Hd. change (signatureString values [] fn)
    with (signatureString values ["date"] fn).
  rewrite (signatureString_fn_irrelevant values fn requestTargetNotPermitted
             ["date"]).
  - rewrite (signatureString_lines _ _ _ _ requestTargetNotPermitted_returns).
    cbn [length]. destruct (decide (1 = 0)) as [|_]; [done|].
    cbn [canonicalLines]. unfold component.
    destruct (decide (strings.ToLower "date" = RequestTarget)) as [|_]; [done|].
    change (textproto.CanonicalMIMEHeaderKey (strings.ToLower "date")) with "Date".
    rewrite Hd. reflexivity.
  - done.
  - apply Forall_cons_2; [by vm_compute | apply Forall_nil_2].
Qed.

(** With an empty list, a header map without a Date entry gives the
    missing-header error of the date. *)
Lemma signatureString_default_absent (values : http.Header)
    (fn : requestTargetFn) :
  values !! "Date" = None →
  signatureString values [] fn = ("", Some (ErrMissingHeader "date")).
Proof.
  intros Hd. unfold signatureString. cbn [length].
  destruct (decide (0 = 0)) as [_|]; [|done].
  unfold defaultHeaders, dateHeader. cbn [writeComponents length].
  destruct (decide ("date" = RequestTarget)) as [|_]; [done|].
  change (strings.ToLower "date") with "date".
  change (textproto.CanonicalMIMEHeaderKey "date") with "Date".
  rewrite Hd. done.
Qed.

(** C6.  With an empty list of headers the components signed and the headers
    parameter written are those of the list [date]: the value added to the
    target header carries the headers parameter with the one name date, and
    for a header map with a Date entry (ASCII values) the canonical string is
    the date line alone, which each of the four sign operations signs before
    it writes those parameters.  For a header map without a Date entry the
    canonical string and the four sign operations fail with the
    missing-header error of the date, and the message is left as it was. *)
Theorem C6_default_header_list (values : http.Header) (fn : requestTargetFn)
    (targetHeader pubKeyId algo enc : string) :
  signatureString values [] fn = signatureString values ["date"] fn
  ∧ setSignatureHeader values targetHeader pubKeyId algo enc []
    = setSignatureHeader values targetHeader pubKeyId algo enc ["date"]
  ∧ setSignatureHeader values targetHeader pubKeyId algo enc []
    = http.Add values targetHeader (defaultParams pubKeyId algo enc)
  ∧ (∀ vs, values !! "Date" = Some vs → Forall isASCII vs →
       signatureString values [] fn = (dateLine vs, None)
       ∧ (∀ (mc : macer) (key sig method url : string),
            macer_Sign mc (dateLine vs) key = (sig, None) →
            let signed :=
              http.Add values targetHeader
                (defaultParams pubKeyId (macer_String mc)
                   (base64.EncodeToString sig)) in
            macSigner.SignRequest (macSigner.mk mc [] targetHeader)
              (BytesKey key) pubKeyId (http.mkRequest method url values)
            = (http.mkRequest method url signed, None)
            ∧ macSigner.SignResponse (macSigner.mk mc [] targetHeader)
                (BytesKey key) pubKeyId (http.mkResponseWriter values)
              = (http.mkResponseWriter signed, None))
       ∧ (∀ (sc : signer) (rand : list ascii) (pKey : Key)
            (sig method url : string),
            signer_Sign sc rand pKey (dateLine vs) = (sig, None) →
            let signed :=
              http.Add values targetHeader
                (defaultParams pubKeyId (signer_String sc)
                   (base64.EncodeToString sig)) in
            asymmSigner.SignRequest (asymmSigner.mk sc [] targetHeader)
              rand pKey pubKeyId (http.mkRequest method url values)
            = (http.mkRequest method url signed, None)
            ∧ asymmSigner.SignResponse (asymmSigner.mk sc [] targetHeader)
                rand pKey pubKeyId (http.mkResponseWriter values)
              = (http.mkResponseWriter signed, None)))
  ∧ (values !! "Date" = None →
       signatureString values [] fn = ("", Some (ErrMissingHeader "date"))
       ∧ (∀ (mc : macer) (pKey : Key) (method url : string),
            macSigner.SignRequest (macSigner.mk mc [] targetHeader) pKey
              pubKeyId (http.mkRequest method url values)
            = (http.mkRequest method url values, Some (ErrMissingHeader "date"))
            ∧ macSigner.SignResponse (macSigner.mk mc [] targetHeader) pKey
                pubKeyId (http.mkResponseWriter values)
              = (http.mkResponseWriter values, Some (ErrMissingHeader "date")))
       ∧ (∀ (sc : signer) (rand : list ascii) (pKey : Key)
            (method url : string),
            asymmSigner.SignRequest (asymmSigner.mk sc [] targetHeader) rand
              pKey pubKeyId (http.mkRequest method url values)
            = (http.mkRequest method url values, Some (ErrMissingHeader "date"))
            ∧ asymmSigner.SignResponse (asymmSigner.mk sc [] targetHeader)
                rand pKey pubKeyId (http.mkResponseWriter values)
              = (http.mkResponseWriter values, Some (ErrMissingHeader "date")))).
Proof.
  split; [done|]. split; [done|].
  split; [by rewrite setSignatureHeader_serialize|]. split.
  - intros vs Hd _.
    pose proof (λ fn', signatureString_default_present values fn' vs Hd) as Hs.
    split; [apply Hs|]. split.
    + intros mc key sig method url Hsig signed. subst signed.
      unfold macSigner.SignRequest, macSigner.SignResponse,
        macSigner.signatureString, macSigner.signatureStringResponse,
        macSigner.signSignature.
      cbn [http.ReqHeader http.RespHeader http.Method http.URL
           macSigner.headers macSigner.m macSigner.targetHeader assertBytes].
      rewrite !Hs, Hsig, setSignatureHeader_serialize. done.
    + intros sc rand pKey sig method url Hsig signed. subst signed.
      unfold asymmSigner.SignRequest, asymmSigner.SignResponse,
        asymmSigner.signatureString, asymmSigner.signatureStringResponse,
        asymmSigner.signSignature.
      cbn [http.ReqHeader http.RespHeader http.Method http.URL
           asymmSigner.headers asymmSigner.s asymmSigner.targetHeader].
      rewrite !Hs, Hsig, setSignatureHeader_serialize. done.
  - intros Hd.
    pose proof (λ fn', signatureString_default_absent values fn' Hd) as Hs.
    split; [apply Hs|]. split.
    + intros mc pKey method url.
      unfold macSigner.SignRequest, macSigner.SignResponse,
        macSigner.signatureString, macSigner.signatureStringResponse.
      cbn [http.ReqHeader http.RespHeader macSigner.headers].
      by rewrite !Hs.
    + intros sc rand pKey method url.
      unfold asymmSigner.SignRequest, asymmSigner.SignResponse,
        asymmSigner.signatureString, asymmSigner.signatureStringResponse.
      cbn [http.ReqHeader http.RespHeader asymmSigner.headers].
      by rewrite !Hs.
Qed.

Lemma C6_default_header_list_witness :
  signatureString exampleHeader [] requestTargetNotPermitted
  = ("date: Tue, 07 Jun 2014 20:51:35 GMT", None)
  ∧ setSignatureHeader exampleHeader "Signature" "alice" "plain" "c2ln" []
    = http.Add exampleHeader "Signature"
        ("keyId=" +:+ quote +:+ "alice" +:+ quote +:+
         ",algorithm=" +:+ quote +:+ "plain" +:+ quote +:+
         ",headers=" +:+ quote +:+ "date" +:+ quote +:+
         ",signature=" +:+ quote +:+ "c2ln" +:+ quote)
  ∧ macSigner.SignRequest (macSigner.mk plainMac [] "Signature")
      (BytesKey "secret") "alice" exampleRequest
    = (http.mkRequest "GET" "/foo"
         (http.Add exampleHeader "Signature"
            ("keyId=" +:+ quote +:+ "alice" +:+ quote +:+
             ",algorithm=" +:+ quote +:+ "plain" +:+ quote +:+
             ",headers=" +:+ quote +:+ "date" +:+ quote +:+
             ",signature=" +:+ quote
               +:+ "c2VjcmV0ZGF0ZTogVHVlLCAwNyBKdW4gMjAxNCAyMDo1MTozNSBHTVQ="
               +:+ quote)),
       None)
  ∧ signatureString ∅ [] requestTargetNotPermitted
    = ("", Some (ErrMissingHeader "date")).
Proof.
  destruct (C6_default_header_list exampleHeader requestTargetNotPermitted
              "Signature" "alice" "plain" "c2ln")
    as (_ & _ & Hwritten & Hpresent & _).
  destruct (C6_default_header_list ∅ requestTargetNotPermitted
              "Signature" "alice" "plain" "c2ln")
    as (_ & _ & _ & _ & Habsent).
  destruct (Hpresent [exampleDate] eq_refl ltac:(by_compute))
    as (Hstring & Hmac & _).
  split; [exact Hstring|]. split; [exact Hwritten|]. split.
  - apply (Hmac plainMac "secret"
             ("secret" +:+ "date: Tue, 07 Jun 2014 20:51:35 GMT") "GET" "/foo").
    reflexivity.
  - apply Habsent. reflexivity.
Defined.

(** ** C8: signing adds one header value or changes nothing *)

Lemma Add_appended_one (h : http.Header) (key value : string) :
  appended_one h (http.Add h key value) key.
Proof.
  unfold appended_one, http.Add. split.
  - exists value. by rewrite lookup_insert_eq.
  - intros k' Hk. by rewrite lookup_insert_ne.
Qed.

Lemma setSignatureHeader_appended_one (h : http.Header)
    (targetHeader pubKeyId algo enc : string) (headers : list string) :
  appended_one h (setSignatureHeader h targetHeader pubKeyId algo enc headers)
    targetHeader.
Proof. rewrite setSignatureHeader_serialize. apply Add_appended_one. Qed.

(** C8.  Each of the four sign operations either returns no error and leaves
    the header map with exactly one more value, at the end of the values of
    the target header, every other entry (and the earlier values of the
    target header) as it was; or returns an error and the message as it
    was. *)
Theorem C8_sign_all_or_nothing :
  (∀ ms pKey pubKeyId r,
     let res := macSigner.SignRequest ms pKey pubKeyId r in
     all_or_nothing (http.ReqHeader r) (http.ReqHeader res.1)
       (macSigner.targetHeader ms) res.2
     ∧ http.Method res.1 = http.Method r ∧ http.URL res.1 = http.URL r)
  ∧ (∀ ms pKey pubKeyId w,
       let res := macSigner.SignResponse ms pKey pubKeyId w in
       all_or_nothing (http.RespHeader w) (http.RespHeader res.1)
         (macSigner.targetHeader ms) res.2)
  ∧ (∀ a rand pKey pubKeyId r,
       let res := asymmSigner.SignRequest a rand pKey pubKeyId r in
       all_or_nothing (http.ReqHeader r) (http.ReqHeader res.1)
         (asymmSigner.targetHeader a) res.2
       ∧ http.Method res.1 = http.Method r ∧ http.URL res.1 = http.URL r)
  ∧ (∀ a rand pKey pubKeyId w,
       let res := asymmSigner.SignResponse a rand pKey pubKeyId w in
       all_or_nothing (http.RespHeader w) (http.RespHeader res.1)
         (asymmSigner.targetHeader a) res.2).
Proof.
  split; [|split; [|split]].
  - intros ms pKey pubKeyId r res. subst res. unfold macSigner.SignRequest.
    destruct (macSigner.signatureString ms r) as [s [e|]]; [done|].
    destruct (macSigner.signSignature ms pKey s) as [enc [e|]]; [done|].
    split; [|done]. apply setSignatureHeader_appended_one.
  - intros ms pKey pubKeyId w res. subst res. unfold macSigner.SignResponse.
    destruct (macSigner.signatureStringResponse ms w) as [s [e|]]; [done|].
    destruct (macSigner.signSignature ms pKey s) as [enc [e|]]; [done|].
    apply setSignatureHeader_appended_one.
  - intros a rand pKey pubKeyId r res. subst res. unfold asymmSigner.SignRequest.
    destruct (asymmSigner.signatureString a r) as [s [e|]]; [done|].
    destruct (asymmSigner.signSignature a rand pKey s) as [enc [e|]]; [done|].
    split; [|done]. apply setSignatureHeader_appended_one.
  - intros a rand pKey pubKeyId w res. subst res. unfold asymmSigner.SignResponse.
    destruct (asymmSigner.signatureStringResponse a w) as [s [e|]]; [done|].
    destruct (asymmSigner.signSignature a rand pKey s) as [enc [e|]]; [done|].
    apply setSignatureHeader_appended_one.
Qed.

(** ** Parsing the signature header *)

Section Split.
Import strings.

Lemma genSplit_no_cut (sep s : string) : genSplit sep (Some 0) 0 s = [s].
Proof. by destruct s. Qed.

Lemma genSplit_nonempty (sep : string) (cuts : option nat) (skip : nat)
    (s : string) :
  genSplit sep cuts skip s ≠ [].
Proof.
  revert cuts skip. induction s as [|c s IH]; intros cuts skip; [done|].
  cbn [genSplit]. destruct skip as [|k]; [|apply IH].
  destruct cuts as [[|n]|]; [done|..];
    (destruct (String.prefix sep (String c s)); [done|]);
    unfold cons_head; by destruct (genSplit _ _ _ _).
Qed.

Lemma length_cons_head (c : ascii) (l : list string) :
  l ≠ [] → length (cons_head c l) = length l.
Proof. by destruct l. Qed.

(** A token without [=] is one piece; a token with one is two pieces, cut
    at the first [=]. *)
Lemma SplitN_eq_2 (p : string) :
  match Index p "=" with
  | None => SplitN p "=" 2 = [p]
  | Some _ => length (SplitN p "=" 2) = 2
  end.
Proof.
  unfold SplitN. cbn [decide]. 
  destruct (decide (2 = 0)%Z) as [|_]; [done|].
  destruct (decide (2 < 0)%Z) as [|_]; [lia|].
  destruct (decide ("=" = "")) as [|_]; [done|].
  change (Z.to_nat 2 - 1) with 1.
  induction p as [|c p IH]; [done|].
  cbn [genSplit Index]. destruct (String.prefix "=" (String c p)) eqn:Hp.
  - cbn [fmap option_fmap option_map pred String.length].
    by rewrite genSplit_no_cut.
  - destruct (Index p "=") as [i|]; cbn [fmap option_fmap option_map].
    + rewrite length_cons_head; [done | apply genSplit_nonempty].
    + by rewrite IH.
Qed.

Lemma wellFormedParam_Contains (p : string) :
  wellFormedParam p ↔ Contains p "=" = true.
Proof.
  unfold wellFormedParam, Contains, parameterKVSeparater.
  pose proof (SplitN_eq_2 p) as H. destruct (Index p "=").
  - by rewrite H.
  - rewrite H. simpl. split; [lia | done].
Qed.

Lemma malformed_SplitN (p : string) :
  Contains p "=" = false → SplitN p parameterKVSeparater 2 = [p].
Proof.
  unfold Contains, parameterKVSeparater. pose proof (SplitN_eq_2 p) as H.
  by destruct (Index p "=").
Qed.

End Split.

Section Scan.

(** A malformed token ends the scan with the malformed-parameter error for
    the first such token. *)
Lemma scanParams_malformed (params : list string) (kId sig : string)
    (headers : list string) :
  Exists (λ p, ¬ wellFormedParam p) params →
  ∃ p, p ∈ params ∧ ¬ wellFormedParam p ∧
    c_err (scanParams params kId sig headers)
    = Some (ErrMalformedParameter (strings.SplitN p parameterKVSeparater 2)).
Proof.
  revert kId sig headers.
  induction params as [|p rest IH]; intros kId sig headers Hex.
  - by apply Exists_nil in Hex.
  - cbn [scanParams]. destruct (decide (wellFormedParam p)) as [Hwf|Hwf].
    + apply Exists_cons in Hex as [?|Hex]; [done|].
      destruct (decide (length _ ≠ 2)) as [?|_]; [done|].
      assert (∀ k s h, ∃ q, q ∈ p :: rest ∧ ¬ wellFormedParam q ∧
                c_err (scanParams rest k s h)
                = Some (ErrMalformedParameter (strings.SplitN q parameterKVSeparater 2))) as H.
      { intros k s h. destruct (IH k s h Hex) as (q & ? & ? & ?).
        exists q. split; [by right | done]. }
      repeat case_decide; apply H.
    + destruct (decide (length _ ≠ 2)) as [_|?]; [|done].
      exists p. split; [by left | done].
Qed.

Lemma scanParams_wellFormed (params : list string) (kId sig : string)
    (headers : list string) :
  Forall wellFormedParam params →
  c_err (scanParams params kId sig headers) = None.
Proof.
  revert kId sig headers.
  induction params as [|p rest IH]; intros kId sig headers Hall; [done|].
  apply Forall_cons in Hall as [Hwf Hall]. cbn [scanParams].
  destruct (decide (length _ ≠ 2)) as [?|_]; [done|].
  repeat case_decide; by apply IH.
Qed.

(** A variable of the scan changes only at a token whose key is exactly the
    parameter's name. *)
Lemma scanParams_kId_absent (params : list string) (kId sig : string)
    (headers : list string) :
  Forall (λ p, paramKey p ≠ keyIdParameter) params →
  c_kId (scanParams params kId sig headers) = kId.
Proof.
  revert kId sig headers.
  induction params as [|p rest IH]; intros kId sig headers Hall; [done|].
  apply Forall_cons in Hall as [Hk Hall]. cbn [scanParams].
  destruct (decide (length _ ≠ 2)) as [?|_]; [done|].
  fold (paramKey p). repeat case_decide; try done; by apply IH.
Qed.

Lemma scanParams_sig_absent (params : list string) (kId sig : string)
    (headers : list string) :
  Forall (λ p, paramKey p ≠ signatureParameter) params →
  c_sig (scanParams params kId sig headers) = sig.
Proof.
  revert kId sig headers.
  induction params as [|p rest IH]; intros kId sig headers Hall; [done|].
  apply Forall_cons in Hall as [Hk Hall]. cbn [scanParams].
  destruct (decide (length _ ≠ 2)) as [?|_]; [done|].
  fold (paramKey p). repeat case_decide; try done; by apply IH.
Qed.

Lemma scanParams_headers_absent (params : list string) (kId sig : string)
    (headers : list string) :
  Forall (λ p, paramKey p ≠ headersParameter) params →
  c_headers (scanParams params kId sig headers) = headers.
Proof.
  revert kId sig headers.
  induction params as [|p rest IH]; intros kId sig headers Hall; [done|].
  apply Forall_cons in Hall as [Hk Hall]. cbn [scanParams].
  destruct (decide (length _ ≠ 2)) as [?|_]; [done|].
  fold (paramKey p). repeat case_decide; try done; by apply IH.
Qed.

(** The checks after the loop. *)
Lemma getSignatureComponents_scanned (s : string) :
  let r := scanParams (strings.Split s parameterSeparater) "" "" [] in
  c_err r = None →
  getSignatureComponents s
  = if decide (c_kId r = "") then
      mkComponents (c_kId r) (c_sig r) (c_headers r)
        (Some (ErrMissingParameter keyIdParameter))
    else if decide (c_sig r = "") then
      mkComponents (c_kId r) (c_sig r) (c_headers r)
        (Some (ErrMissingParameter signatureParameter))
    else if decide (c_headers r = []) then
      mkComponents (c_kId r) (c_sig r) defaultHeaders None
    else r.
Proof.
  intros r Hr. unfold getSignatureComponents. fold r. rewrite Hr.
  destruct (c_kId r) as [|c k] eqn:Hk; [done|].
  destruct (decide (String.length (String c k) = 0)) as [|_]; [done|].
  destruct (decide (String c k = "")) as [|_]; [done|].
  destruct (c_sig r) as [|c' k'] eqn:Hs; [done|].
  destruct (decide (String.length (String c' k') = 0)) as [|_]; [done|].
  destruct (decide (String c' k' = "")) as [|_]; [done|].
  by destruct (c_headers r).
Qed.

End Scan.

(** ** C5: malformed tokens, missing parameters, default headers *)

(** C5.  With [toks] the comma-separated tokens of a header value: if some
    token holds no [=], parsing fails with the malformed-parameter error (for
    such a token); if every token holds one, then parsing fails with the
    missing-parameter error for keyId when no token has the key keyId, and
    with the missing-parameter error (for keyId when the key id found is
    empty, for signature otherwise) when no token has the key signature; and
    when no token has the key headers, a parse that succeeds returns the
    list [date]. *)
Theorem C5_parse_errors_and_default (s : string) :
  let toks := strings.Split s parameterSeparater in
  let r := getSignatureComponents s in
  (Exists (λ p, strings.Contains p "=" = false) toks →
     ∃ p, p ∈ toks ∧ strings.Contains p "=" = false
          ∧ c_err r = Some (ErrMalformedParameter [p]))
  ∧ (Forall (λ p, strings.Contains p "=" = true) toks →
       (Forall (λ p, paramKey p ≠ "keyId") toks →
          c_err r = Some (ErrMissingParameter "keyId"))
       ∧ (Forall (λ p, paramKey p ≠ "signature") toks →
            c_err r = Some (ErrMissingParameter
                              (if decide (c_kId r = "") then "keyId" else "signature")))
       ∧ (Forall (λ p, paramKey p ≠ "headers") toks →
            c_err r = None → c_headers r = ["date"])).
Proof.
  intros toks r. split.
  - intros Hex.
    assert (Exists (λ p, ¬ wellFormedParam p) toks) as Hex'.
    { eapply Exists_impl; [exact Hex|]. intros p Hp.
      rewrite wellFormedParam_Contains. congruence. }
    destruct (scanParams_malformed toks "" "" [] Hex') as (p & Hin & Hnwf & He).
    assert (strings.Contains p "=" = false) as Hc.
    { rewrite wellFormedParam_Contains in Hnwf.
      by destruct (strings.Contains p "="). }
    exists p. split; [done|]. split; [done|].
    subst r. unfold getSignatureComponents. fold toks. rewrite He.
    rewrite He. by rewrite malformed_SplitN.
  - intros Hall.
    assert (Forall wellFormedParam toks) as Hwf.
    { eapply Forall_impl; [exact Hall|]. intros p Hp.
      by apply wellFormedParam_Contains. }
    pose proof (scanParams_wellFormed toks "" "" [] Hwf) as He.
    pose proof (getSignatureComponents_scanned s He) as Hr.
    fold toks r in Hr. split; [|split].
    + intros Hk. pose proof (scanParams_kId_absent toks "" "" [] Hk) as Hk'.
      rewrite Hr, Hk'. done.
    + intros Hs. pose proof (scanParams_sig_absent toks "" "" [] Hs) as Hs'.
      rewrite Hr, Hs'. destruct (decide (c_kId _ = "")) as [Hk|Hk].
      * cbn [c_kId c_err]. by rewrite decide_True.
      * cbn [c_kId c_err]. destruct (decide ("" = "")) as [_|]; [|done].
        cbn [c_kId c_err]. by rewrite decide_False.
    + intros Hh. pose proof (scanParams_headers_absent toks "" "" [] Hh) as Hh'.
      rewrite Hr, Hh'.
      destruct (decide (c_kId _ = "")); [done|].
      destruct (decide (c_sig _ = "")); [done|].
      by destruct (decide ([] = [])).
Qed.

Lemma C5_parse_errors_and_default_witness :
  c_headers (getSignatureComponents exampleParams) = ["date"].
Proof.
  refine (proj2 (proj2 (proj2 (C5_parse_errors_and_default exampleParams) _)) _ _).
  - by_compute.
  - by_compute.
  - by vm_compute.
Defined.

(** ** C9: parameter keys are matched as they are *)

Lemma variant_unrecognized (name p other : string) :
  recognized name → recognized other → variantOf name p → paramKey p ≠ other.
Proof.
  unfold recognized. rewrite !elem_of_cons, !elem_of_nil.
  intros Hn Ho [Hne Hfold] Heq. rewrite Heq in Hne, Hfold. clear Heq.
  destruct Hn as [->|[->|[->|[->|[]]]]];
    destruct Ho as [->|[->|[->|[->|[]]]]];
    solve [done | by vm_compute in Hfold].
Qed.

(** C9.  A well-formed token whose key is a recognized name only up to case
    or surrounding white space leaves the three variables of the scan as
    they are; and a header value in which keyId (or signature) occurs in
    such a variant only, and under no key that is exactly the name, fails
    with the missing-parameter error, for keyId when the key id found is
    empty and for signature otherwise. *)
Theorem C9_parameter_keys_exact :
  (∀ (name p : string) (rest : list string) (kId sig : string)
     (headers : list string),
     recognized name → wellFormedParam p → variantOf name p →
     scanParams (p :: rest) kId sig headers = scanParams rest kId sig headers)
  ∧ (∀ (name s : string),
       let toks := strings.Split s parameterSeparater in
       let r := getSignatureComponents s in
       name = "keyId" ∨ name = "signature" →
       Forall wellFormedParam toks →
       Exists (variantOf name) toks →
       Forall (λ p, paramKey p ≠ name) toks →
       c_err r = Some (ErrMissingParameter
                         (if decide (c_kId r = "") then "keyId" else "signature"))
       ∧ (name = "keyId" → c_kId r = "")
       ∧ (name = "signature" → c_sig r = "")).
Proof.
  split.
  - intros name p rest kId sig headers Hn Hwf Hv. cbn [scanParams].
    destruct (decide (length _ ≠ 2)) as [?|_]; [done|]. fold (paramKey p).
    assert (∀ other, recognized other → paramKey p ≠ other) as Hno.
    { intros other Ho. by apply (variant_unrecognized name). }
    rewrite decide_False by (apply Hno; unfold recognized; repeat constructor).
    destruct (decide (paramKey p = algorithmParameter)); [done|].
    rewrite decide_False by (apply Hno; unfold recognized; repeat constructor).
    by rewrite decide_False by (apply Hno; unfold recognized; repeat constructor).
  - intros name s toks r Hname Hwf _ Habs.
    pose proof (scanParams_wellFormed toks "" "" [] Hwf) as He.
    pose proof (getSignatureComponents_scanned s He) as Hr.
    fold toks r in Hr.
    destruct Hname as [-> | ->].
    + pose proof (scanParams_kId_absent toks "" "" [] Habs) as Hk.
      rewrite Hk in Hr. rewrite Hr. cbn. done.
    + pose proof (scanParams_sig_absent toks "" "" [] Habs) as Hs.
      rewrite Hs in Hr. rewrite Hr.
      destruct (decide (c_kId _ = "")) as [Hk|Hk].
      * cbn [c_kId c_err c_sig]. by rewrite decide_True.
      * destruct (decide ("" = "")) as [_|]; [|done].
        cbn [c_kId c_err c_sig]. by rewrite decide_False.
Qed.

Lemma C9_parameter_keys_exact_witness :
  c_err (getSignatureComponents exampleSpacedParams)
  = Some (ErrMissingParameter "signature").
Proof.
  refine (proj1 (proj2 C9_parameter_keys_exact "signature" exampleSpacedParams
                   _ _ _ _)).
  - by right.
  - by_compute.
  - by_compute.
  - by_compute.
Defined.

(** ** C10: an empty headers parameter *)

(** Scanning well-formed tokens comes to the scan of what follows them, from
    some state of the three variables. *)
Lemma scanParams_app (pre : list string) (kId sig : string)
    (headers : list string) :
  Forall wellFormedParam pre →
  ∃ kId' sig' headers', ∀ rest,
    scanParams (pre ++ rest) kId sig headers
    = scanParams rest kId' sig' headers'.
Proof.
  revert kId sig headers.
  induction pre as [|p pre IH]; intros kId sig headers Hall.
  - by exists kId, sig, headers.
  - apply Forall_cons in Hall as [Hwf Hall]. cbn [app scanParams].
    destruct (decide (length _ ≠ 2)) as [?|_]; [done|].
    repeat case_decide; by apply IH.
Qed.

Lemma signatureString_empty_name (values : http.Header) (fn : requestTargetFn) :
  values !! "" = None →
  signatureString values [""] fn = ("", Some (ErrMissingHeader "")).
Proof.
  intros Hv. unfold signatureString. cbn [length].
  destruct (decide (1 = 0)) as [|_]; [done|].
  cbn [writeComponents length].
  destruct (decide (strings.ToLower "" = RequestTarget)) as [|_]; [done|].
  change (textproto.CanonicalMIMEHeaderKey (strings.ToLower "")) with "".
  by rewrite Hv.
Qed.

(** C10.  When the last token with the key headers is the token with an empty
    quoted value and the other tokens are well formed, the list of signed
    headers is the one empty name, not the default list; the parse succeeds
    whenever the key id and the signature found are not empty; and for a
    header map with no entry under the empty name the canonical string of
    that list fails with the missing-header error for the empty name. *)
Theorem C10_empty_headers_parameter (s : string) (pre post : list string) :
  let r := getSignatureComponents s in
  strings.Split s parameterSeparater = pre ++ emptyHeadersParam :: post →
  Forall wellFormedParam (pre ++ post) →
  Forall (λ p, paramKey p ≠ headersParameter) post →
  c_headers r = [""]
  ∧ (c_kId r ≠ "" → c_sig r ≠ "" → c_err r = None)
  ∧ ∀ (values : http.Header) (fn : requestTargetFn),
      values !! "" = None →
      signatureString values (c_headers r) fn
      = ("", Some (ErrMissingHeader "")).
Proof.
  intros r Hsplit Hwf Hpost.
  apply Forall_app in Hwf as [Hpre Hwfpost].
  assert (wellFormedParam emptyHeadersParam) as Hwfe by by_compute.
  assert (Forall wellFormedParam (strings.Split s parameterSeparater)) as Hall.
  { rewrite Hsplit. apply Forall_app. split; [done|]. by apply Forall_cons. }
  pose proof (scanParams_wellFormed _ "" "" [] Hall) as He.
  pose proof (getSignatureComponents_scanned s He) as Hr. fold r in Hr.
  destruct (scanParams_app pre "" "" [] Hpre) as (k' & s' & h' & Hscan).
  assert (c_headers (scanParams (strings.Split s parameterSeparater) "" "" []) = [""])
    as Hh.
  { rewrite Hsplit, Hscan.
    change (scanParams (emptyHeadersParam :: post) k' s' h')
      with (scanParams post k' s' [""]).
    by apply scanParams_headers_absent. }
  assert (c_headers r = [""]) as Hhr.
  { rewrite Hr, Hh. repeat case_decide; done. }
  split; [done|]. split.
  - rewrite Hr. repeat case_decide; cbn [c_kId c_sig c_err];
      first [done | by rewrite He].
  - intros values fn Hv. rewrite Hhr. by apply signatureString_empty_name.
Qed.

Lemma C10_empty_headers_parameter_witness :
  c_headers (getSignatureComponents exampleEmptyHeaders) = [""]
  ∧ c_err (getSignatureComponents exampleEmptyHeaders) = None
  ∧ signatureString exampleHeader
      (c_headers (getSignatureComponents exampleEmptyHeaders))
      requestTargetNotPermitted
    = ("", Some (ErrMissingHeader "")).
Proof.
  destruct (C10_empty_headers_parameter exampleEmptyHeaders
              ["keyId=" +:+ quote +:+ "a" +:+ quote]
              ["signature=" +:+ quote +:+ "b" +:+ quote])
    as (H1 & H2 & H3).
  - by vm_compute.
  - by_compute.
  - by_compute.
  - split; [exact H1|]. split.
    + apply H2; by vm_compute.
    + apply H3. by vm_compute.
Defined.

(** ** C3: the canonical string of real headers *)

Section Fold.
Import strings textproto.

Lemma toLower_toLower (c : ascii) : toLowerByte (toLowerByte c) = toLowerByte c.
Proof. destruct c as [[] [] [] [] [] [] [] []]; reflexivity. Qed.




Lemma ToLower_idem (s : string) : ToLower (ToLower s) = ToLower s.
Proof.
  induction s as [|c s IH]; [done|]. cbn [ToLower].
  by rewrite toLower_toLower, IH.
Qed.






End Fold.

Section RealHeaders.
Import bytes buffer_spec buffer_facts.



End RealHeaders.



(** ** Base64: decoding an encoding *)

Section Base64.
Import base64.

Lemma list_ind3 {A} (P : list A → Prop) :
  P [] → (∀ a, P [a]) → (∀ a b, P [a; b]) →
  (∀ a b c r, P r → P (a :: b :: c :: r)) →
  ∀ l, P l.
Proof.
  intros H0 H1 H2 H3.
  fix IH 1. intros [|a [|b [|c r]]]; [done..|]. apply H3, IH.
Qed.

Lemma dec6_enc6 (n : nat) : n < 64 → dec6 (enc6 n) = Some n.
Proof.
  intros Hn. do 64 (destruct n as [|n]; [reflexivity|]). lia.
Qed.

Lemma dec6_pad : dec6 "="%char = None.
Proof. reflexivity. Qed.

Lemma enc6_isBase64Byte (n : nat) : isBase64Byte (enc6 n) = true.
Proof.
  do 64 (destruct n as [|n]; [reflexivity|]). by destruct n.
Qed.

Lemma byte3_full (a b c : ascii) :
  let x := nat_of_ascii a in
  let y := nat_of_ascii b in
  let z := nat_of_ascii c in
  byte3 (x / 4) (x mod 4 * 16 + y / 16) (y mod 16 * 4 + z / 64) (z mod 64)
  = [a; b; c].
Proof.
  intros x y z.
  assert (x < 256 ∧ y < 256 ∧ z < 256) as (Hx & Hy & Hz)
    by (repeat split; apply nat_ascii_bounded).
  unfold byte3.
  replace (x / 4 * 4 + (x mod 4 * 16 + y / 16) / 16) with x by lia_div.
  replace ((x mod 4 * 16 + y / 16) mod 16 * 16 + (y mod 16 * 4 + z / 64) / 4)
    with y by lia_div.
  replace ((y mod 16 * 4 + z / 64) mod 4 * 64 + z mod 64) with z by lia_div.
  subst x y z. by rewrite !ascii_nat_embedding.
Qed.

Lemma byte3_two (a b : ascii) :
  let x := nat_of_ascii a in
  let y := nat_of_ascii b in
  take 2 (byte3 (x / 4) (x mod 4 * 16 + y / 16) (y mod 16 * 4) 0) = [a; b].
Proof.
  intros x y.
  assert (x < 256 ∧ y < 256) as (Hx & Hy)
    by (repeat split; apply nat_ascii_bounded).
  unfold byte3. cbn [take].
  replace (x / 4 * 4 + (x mod 4 * 16 + y / 16) / 16) with x by lia_div.
  replace ((x mod 4 * 16 + y / 16) mod 16 * 16 + (y mod 16 * 4) / 4)
    with y by lia_div.
  subst x y. by rewrite !ascii_nat_embedding.
Qed.

Lemma byte3_one (a : ascii) :
  let x := nat_of_ascii a in
  take 1 (byte3 (x / 4) (x mod 4 * 16) 0 0) = [a].
Proof.
  intros x. assert (x < 256) as Hx by apply nat_ascii_bounded.
  unfold byte3. cbn [take].
  replace (x / 4 * 4 + (x mod 4 * 16) / 16) with x by lia_div.
  subst x. by rewrite ascii_nat_embedding.
Qed.

Lemma decode_encode (l : list ascii) : decode (encode l) = Some l.
Proof.
  induction l as [|a|a b|a b c r IH] using list_ind3.
  - done.
  - cbn [encode decode].
    rewrite !dec6_enc6, dec6_pad
      by (pose proof (nat_ascii_bounded a); lia_div).
    rewrite decide_True by done. by rewrite byte3_one.
  - cbn [encode decode].
    rewrite !dec6_enc6, dec6_pad
      by (pose proof (nat_ascii_bounded a); pose proof (nat_ascii_bounded b); lia_div).
    rewrite decide_True by done. by rewrite byte3_two.
  - cbn [encode decode].
    rewrite !dec6_enc6
      by (pose proof (nat_ascii_bounded a); pose proof (nat_ascii_bounded b);
          pose proof (nat_ascii_bounded c); lia_div).
    rewrite IH, byte3_full. done.
Qed.

Lemma encode_allBytes (l : list ascii) : allBytes isBase64Byte (encode l) = true.
Proof.
  induction l as [|a|a b|a b c r IH] using list_ind3;
    cbn [encode allBytes]; rewrite ?enc6_isBase64Byte, ?IH; done.
Qed.

Lemma encode_nonempty (l : list ascii) : l ≠ [] → encode l ≠ "".
Proof. by destruct l as [|a [|b [|c r]]]. Qed.

Lemma stripNewlines_base64 (s : string) :
  allBytes isBase64Byte s = true → stripNewlines s = s.
Proof.
  induction s as [|c s IH]; [done|]. cbn [allBytes stripNewlines].
  intros [Hc Hs]%andb_true_iff. rewrite (IH Hs).
  destruct (decide (c = "013"%char ∨ c = "010"%char)) as [[-> | ->]|_];
    [by vm_compute in Hc | by vm_compute in Hc | done].
Qed.

(** Decoding what [EncodeToString] returns gives the bytes back. *)
Lemma DecodeString_EncodeToString (src : string) :
  DecodeString (EncodeToString src) = (src, None).
Proof.
  unfold DecodeString, EncodeToString.
  rewrite stripNewlines_base64 by apply encode_allBytes.
  rewrite decode_encode. by rewrite string_of_list_ascii_of_string.
Qed.

End Base64.

(** ** Splitting and trimming what the serializer wrote *)

Section SplitJoin.
Import strings.

Lemma hasByte_app (c : ascii) (x y : string) :
  hasByte c (x +:+ y) = hasByte c x || hasByte c y.
Proof.
  induction x as [|d x IH]; [done|]. rewrite app_cons. cbn [hasByte].
  by destruct (decide (d = c)).
Qed.

Lemma allBytes_hasByte (P : ascii → bool) (c : ascii) (s : string) :
  allBytes P s = true → P c = false → hasByte c s = false.
Proof.
  intros Hs Hc. induction s as [|d s IH]; [done|]. cbn [allBytes hasByte] in *.
  apply andb_true_iff in Hs as [Hd Hs].
  destruct (decide (d = c)) as [->|_]; [congruence | by apply IH].
Qed.

Lemma prefix_byte (c d : ascii) (s : string) :
  String.prefix (String c "") (String d s) = bool_decide (d = c).
Proof.
  cbn [String.prefix]. destruct (ascii_dec c d) as [->|Hne].
  - rewrite bool_decide_true by done. by destruct s.
  - by rewrite bool_decide_false by congruence.
Qed.

(** One step of the scan for a separator of one byte. *)
Lemma genSplit_byte_cons (c d : ascii) (cuts : option nat) (s : string) :
  cuts ≠ Some 0 →
  genSplit (String c "") cuts 0 (String d s)
  = if decide (d = c) then "" :: genSplit (String c "") (pred <$> cuts) 0 s
    else cons_head d (genSplit (String c "") cuts 0 s).
Proof.
  intros Hc. cbn [genSplit]. rewrite prefix_byte.
  destruct cuts as [[|n]|]; [done|..];
    (destruct (decide (d = c));
     [rewrite bool_decide_true by done | rewrite bool_decide_false by done];
     done).
Qed.

Lemma genSplit_byte_app (c : ascii) (cuts : option nat) (x y : string) :
  cuts ≠ Some 0 → hasByte c x = false →
  genSplit (String c "") cuts 0 (x +:+ String c y)
  = x :: genSplit (String c "") (pred <$> cuts) 0 y.
Proof.
  intros Hc. induction x as [|d x IH]; intros Hx.
  - rewrite app_empty_l, genSplit_byte_cons by done. by rewrite decide_True.
  - cbn [hasByte] in Hx. destruct (decide (d = c)) as [|Hne]; [done|].
    rewrite app_cons, genSplit_byte_cons by done.
    rewrite decide_False by done. by rewrite IH.
Qed.

Lemma genSplit_byte_last (c : ascii) (cuts : option nat) (x : string) :
  hasByte c x = false → genSplit (String c "") cuts 0 x = [x].
Proof.
  induction x as [|d x IH]; intros Hx; [done|].
  cbn [hasByte] in Hx. destruct (decide (d = c)) as [|Hne]; [done|].
  destruct (decide (cuts = Some 0)) as [->|Hc]; [done|].
  rewrite genSplit_byte_cons by done.
  rewrite decide_False by done. by rewrite IH.
Qed.

(** Splitting a join gives the pieces back, when no piece holds the
    separator. *)
Lemma Split_Join_byte (c : ascii) (l : list string) :
  l ≠ [] → Forall (λ x, hasByte c x = false) l →
  Split (Join l (String c "")) (String c "") = l.
Proof.
  intros Hne Hall. unfold Split. rewrite decide_False by done.
  induction Hall as [|x r Hx Hr IH]; [done|]. clear Hne.
  destruct r as [|y r'].
  - by apply genSplit_byte_last.
  - rewrite Join_cons by done. change (String c "" +:+ ?s) with (String c s).
    rewrite genSplit_byte_app by done. cbn [fmap option_fmap option_map].
    by rewrite IH.
Qed.

(** A token [key=value] splits in its key and its value. *)
Lemma SplitN_key_value (key value : string) :
  hasByte "=" key = false →
  SplitN (key +:+ "=" +:+ value) parameterKVSeparater 2 = [key; value].
Proof.
  intros Hk. unfold SplitN, parameterKVSeparater.
  destruct (decide (2 = 0)%Z) as [|_]; [done|].
  destruct (decide (2 < 0)%Z) as [|_]; [lia|].
  destruct (decide ("=" = "")) as [|_]; [done|].
  change (Z.to_nat 2 - 1) with 1.
  change ("=" +:+ value) with (String "=" value).
  rewrite genSplit_byte_app by done. by rewrite genSplit_no_cut.
Qed.

Lemma TrimRightFunc_app (f : ascii → bool) (x y : string) :
  TrimRightFunc f (x +:+ y)
  = match TrimRightFunc f y with
    | "" => TrimRightFunc f x
    | r => x +:+ r
    end.
Proof.
  induction x as [|d x IH].
  - rewrite app_empty_l. by destruct (TrimRightFunc f y).
  - rewrite app_cons. cbn [TrimRightFunc]. rewrite IH.
    destruct (TrimRightFunc f y) as [|e r] eqn:Hy; [done|].
    rewrite app_cons. by destruct x.
Qed.

(** Trimming the quotes off a quoted value gives the value back when the
    value neither starts nor ends with a quote. *)
Lemma Trim_quoted (x : string) :
  Trim x parameterValueDelimiter = x →
  Trim (quote +:+ x +:+ quote) parameterValueDelimiter = x.
Proof.
  unfold Trim. intros Hx. set (f := inCutset parameterValueDelimiter) in *.
  rewrite !TrimRightFunc_app.
  change (TrimRightFunc f quote) with "".
  destruct (TrimRightFunc f x) as [|d r] eqn:Hr.
  - change (TrimRightFunc f quote) with "". by rewrite <- Hx.
  - change (quote +:+ String d r) with (String "034" (String d r)).
    cbn [TrimLeftFunc]. change (f "034"%char) with true. cbn iota. exact Hx.
Qed.

Lemma Trim_no_quote (x : string) :
  hasByte "034" x = false → Trim x parameterValueDelimiter = x.
Proof.
  intros Hx. unfold Trim.
  assert (∀ s, hasByte "034" s = false →
            TrimRightFunc (inCutset parameterValueDelimiter) s = s) as HR.
  { induction s as [|d s IH]; [done|]. cbn [hasByte TrimRightFunc].
    destruct (decide (d = "034"%char)) as [|Hne]; [done|]. intros Hs.
    rewrite (IH Hs). destruct s; [|done].
    unfold parameterValueDelimiter. cbn [inCutset].
    by rewrite decide_False. }
  rewrite (HR x Hx). destruct x as [|d x]; [done|].
  cbn [hasByte] in Hx. destruct (decide (d = "034"%char)) as [|Hne]; [done|].
  cbn [TrimLeftFunc]. unfold parameterValueDelimiter. cbn [inCutset].
  by rewrite decide_False.
Qed.

(** A string that starts with a parameter name carries parameters. *)
Lemma Contains_prefix (sub rest : string) : Contains (sub +:+ rest) sub = true.
Proof.
  unfold Contains.
  assert (String.prefix sub (sub +:+ rest) = true) as Hp.
  { induction sub as [|d sub IH]; [by destruct rest|].
    rewrite app_cons. cbn [String.prefix].
    destruct (ascii_dec d d); [exact IH | done]. }
  destruct (sub +:+ rest) as [|d s]; cbn [Index]; by rewrite Hp.
Qed.

End SplitJoin.

(** ** Reading back a signature header *)

Section ReadBack.
Import strings.

Lemma toLowerByte_separator (c d : ascii) :
  c = ","%char ∨ c = " "%char ∨ c = "034"%char →
  bool_decide (toLowerByte d = c) = bool_decide (d = c).
Proof.
  intros [-> | [-> | ->]]; destruct d as [[] [] [] [] [] [] [] []]; reflexivity.
Qed.

Lemma hasByte_ToLower (c : ascii) (s : string) :
  c = ","%char ∨ c = " "%char ∨ c = "034"%char →
  hasByte c (ToLower s) = hasByte c s.
Proof.
  intros Hc. induction s as [|d s IH]; [done|]. cbn [ToLower hasByte].
  pose proof (toLowerByte_separator c d Hc) as Hd. rewrite IH.
  destruct (decide (toLowerByte d = c)), (decide (d = c)); try done.
  - rewrite bool_decide_true, bool_decide_false in Hd; done.
  - rewrite bool_decide_false, bool_decide_true in Hd; done.
Qed.

Lemma plainName_ToLower (n : string) : plainName n → plainName (ToLower n).
Proof.
  unfold plainName. rewrite !hasByte_ToLower by tauto. done.
Qed.

Lemma hasByte_Join (c : ascii) (l : list string) (sep : string) :
  hasByte c sep = false → Forall (λ x, hasByte c x = false) l →
  hasByte c (Join l sep) = false.
Proof.
  intros Hsep. induction 1 as [|x r Hx Hr IH]; [done|].
  destruct r as [|y r']; [done|].
  rewrite Join_cons by done. rewrite !hasByte_app, Hx, Hsep, IH. done.
Qed.

Lemma serialize_tokens (pubKeyId algo : string) (headers : list string)
    (enc : string) :
  serialize pubKeyId algo headers enc
  = Join (tokens pubKeyId algo headers enc) ",".
Proof.
  unfold serialize, tokens. cbn [Join]. rewrite !app_assoc_s. reflexivity.
Qed.

Lemma Split_serialize (pubKeyId algo : string) (headers : list string)
    (enc : string) :
  hasByte "," pubKeyId = false → hasByte "," algo = false →
  Forall plainName headers → hasByte "," enc = false →
  Split (serialize pubKeyId algo headers enc) parameterSeparater
  = tokens pubKeyId algo headers enc.
Proof.
  intros Hk Ha Hh He. rewrite serialize_tokens.
  apply Split_Join_byte; [done|].
  assert (hasByte "," (Join (ToLower <$> headers) " ") = false) as HJ.
  { apply hasByte_Join; [done|]. apply Forall_fmap.
    eapply Forall_impl; [exact Hh|]. intros n Hn.
    by apply (plainName_ToLower n). }
  unfold tokens. repeat apply Forall_cons_2; [..|apply Forall_nil_2];
    rewrite !hasByte_app, ?Hk, ?Ha, ?He, ?HJ; reflexivity.
Qed.

(** The scan at a token of each of the four names. *)
Lemma scanParams_token (key value : string) (rest : list string)
    (kId sig : string) (headers : list string) :
  hasByte "=" key = false →
  scanParams ((key +:+ "=" +:+ value) :: rest) kId sig headers
  = let v := Trim value parameterValueDelimiter in
    if decide (key = keyIdParameter) then scanParams rest v sig headers
    else if decide (key = algorithmParameter) then
      scanParams rest kId sig headers
    else if decide (key = headersParameter) then
      scanParams rest kId sig (Split v headerParameterValueDelim)
    else if decide (key = signatureParameter) then
      scanParams rest kId v headers
    else scanParams rest kId sig headers.
Proof.
  intros Hk. cbn [scanParams]. rewrite SplitN_key_value by done.
  cbn [length nth]. by destruct (decide (2 ≠ 2)).
Qed.

Lemma scanParams_keyId (value : string) (rest : list string)
    (kId sig : string) (headers : list string) :
  scanParams (("keyId" +:+ "=" +:+ value) :: rest) kId sig headers
  = scanParams rest (Trim value parameterValueDelimiter) sig headers.
Proof. by rewrite scanParams_token. Qed.

Lemma scanParams_algorithm (value : string) (rest : list string)
    (kId sig : string) (headers : list string) :
  scanParams (("algorithm" +:+ "=" +:+ value) :: rest) kId sig headers
  = scanParams rest kId sig headers.
Proof. by rewrite scanParams_token. Qed.

Lemma scanParams_headers (value : string) (rest : list string)
    (kId sig : string) (headers : list string) :
  scanParams (("headers" +:+ "=" +:+ value) :: rest) kId sig headers
  = scanParams rest kId sig
      (Split (Trim value parameterValueDelimiter) headerParameterValueDelim).
Proof. by rewrite scanParams_token. Qed.

Lemma scanParams_signature (value : string) (rest : list string)
    (kId sig : string) (headers : list string) :
  scanParams (("signature" +:+ "=" +:+ value) :: rest) kId sig headers
  = scanParams rest kId (Trim value parameterValueDelimiter) headers.
Proof. by rewrite scanParams_token. Qed.

(** Parsing what [setSignatureHeader] wrote gives the key id, the encoded
    signature and the lowercased headers back. *)
Lemma getSignatureComponents_serialize (pubKeyId algo : string)
    (headers : list string) (enc : string) :
  pubKeyId ≠ "" → hasByte "," pubKeyId = false →
  Trim pubKeyId parameterValueDelimiter = pubKeyId →
  hasByte "," algo = false →
  headers ≠ [] → Forall plainName headers →
  enc ≠ "" → hasByte "," enc = false →
  Trim enc parameterValueDelimiter = enc →
  getSignatureComponents (serialize pubKeyId algo headers enc)
  = mkComponents pubKeyId enc (ToLower <$> headers) None.
Proof.
  intros Hk0 Hk Hkq Ha Hh0 Hh He0 He Heq.
  assert (scanParams (Split (serialize pubKeyId algo headers enc) parameterSeparater)
            "" "" []
          = mkComponents pubKeyId enc (ToLower <$> headers) None) as Hscan.
  { rewrite Split_serialize by done. unfold tokens.
    assert (Forall plainName (ToLower <$> headers)) as Hlow.
    { apply Forall_fmap. eapply Forall_impl; [exact Hh|].
      intros n Hn. by apply (plainName_ToLower n). }
    assert (Trim (quote +:+ Join (ToLower <$> headers) " " +:+ quote)
              parameterValueDelimiter = Join (ToLower <$> headers) " ") as HJ.
    { apply Trim_quoted, Trim_no_quote, hasByte_Join; [done|].
      eapply Forall_impl; [exact Hlow|]. by intros n (_ & _ & ?). }
    assert (Split (Join (ToLower <$> headers) " ") headerParameterValueDelim
            = ToLower <$> headers) as HS.
    { apply Split_Join_byte; [by destruct headers|].
      eapply Forall_impl; [exact Hlow|]. by intros n (_ & ? & _). }
    rewrite scanParams_keyId, scanParams_algorithm, scanParams_headers,
      scanParams_signature.
    by rewrite !Trim_quoted, HJ, HS by done. }
  rewrite getSignatureComponents_scanned by by rewrite Hscan.
  rewrite Hscan. cbn [c_kId c_sig c_headers].
  rewrite !decide_False; [done|..]; try done. by destruct headers.
Qed.

End ReadBack.

(** ** C2: signing, then verifying *)

Section RoundTrip.

Lemma getSignatureScheme_added (h : http.Header) (target : SignatureScheme)
    (value : string) :
  target = Signature ∨ target = Authorization →
  h !! target = None →
  hasSignatureParameters (http.Get h (otherScheme target)) = false →
  hasSignatureParameters value = true →
  getSignatureScheme (http.Add h target value) = (value, None).
Proof.
  intros Ht Hnone Hother Hval. unfold getSignatureScheme, http.Get, http.Add in *.
  destruct Ht as [-> | ->].
  - change (textproto.CanonicalMIMEHeaderKey Signature) with "Signature" in *.
    change (textproto.CanonicalMIMEHeaderKey (otherScheme Signature))
      with "Authorization" in *.
    change (textproto.CanonicalMIMEHeaderKey Authorization)
      with "Authorization" in *.
    unfold Signature in Hnone. rewrite Hnone.
    rewrite lookup_insert_eq, lookup_insert_ne by done. cbn [default app].
    by rewrite Hval, Hother.
  - change (textproto.CanonicalMIMEHeaderKey Authorization)
      with "Authorization" in *.
    change (textproto.CanonicalMIMEHeaderKey (otherScheme Authorization))
      with "Signature" in *.
    change (textproto.CanonicalMIMEHeaderKey Signature) with "Signature" in *.
    unfold Authorization in Hnone. rewrite Hnone.
    rewrite lookup_insert_eq, lookup_insert_ne by done. cbn [default app].
    by rewrite Hval, Hother.
Qed.

(** The lines of the components do not change when a header that was not in
    the map is added, nor when the names are lowercased first. *)
Lemma canonicalLines_added (h : http.Header) (key : string)
    (vs : list string) (e : option error) (include ls : list string) :
  h !! key = None →
  canonicalLines h e include = inl ls →
  canonicalLines (<[key := vs]> h) e (strings.ToLower <$> include) = inl ls.
Proof.
  intros Hnone. revert ls. induction include as [|i rest IH]; intros ls; [done|].
  rewrite fmap_cons. cbn [canonicalLines]. unfold component.
  rewrite ToLower_idem.
  destruct (decide (strings.ToLower i = RequestTarget)) as [Hrt|Hrt].
  - destruct e as [err|]; [done|].
    destruct (canonicalLines h None rest) as [ls'|]; [|done].
    intros [= <-]. by rewrite (IH ls').
  - destruct (h !! textproto.CanonicalMIMEHeaderKey (strings.ToLower i))
      as [hv|] eqn:Hv; [|done].
    rewrite lookup_insert_ne by congruence. rewrite Hv.
    destruct (canonicalLines h e rest) as [ls'|]; [|done].
    intros [= <-]. by rewrite (IH ls').
Qed.

Lemma signatureString_added (r r' : http.Request) (h : http.Header)
    (headers : list string) (target value s : string) :
  h !! textproto.CanonicalMIMEHeaderKey target = None →
  signatureString h headers (addRequestTarget r) = (s, None) →
  signatureString (http.Add h target value)
    (strings.ToLower <$> signedList headers) (addRequestTarget r')
  = (s, None).
Proof.
  intros Hnone. rewrite !signatureString_request. fold (signedList headers).
  assert (length (strings.ToLower <$> signedList headers) ≠ 0) as Hlen.
  { rewrite length_fmap. unfold signedList. case_decide; [done|lia]. }
  rewrite (decide_False _ _ Hlen).
  destruct (canonicalLines h None (signedList headers)) as [ls|] eqn:Hls;
    [|done].
  intros [= <-]. unfold http.Add.
  by rewrite (canonicalLines_added h _ _ None _ ls Hnone Hls).
Qed.

(** The verifier of a request that was signed with the key id [pubKeyId]
    and the signature [sig]. *)
Lemma NewVerifier_signed (method url : string) (h : http.Header)
    (target : SignatureScheme) (pubKeyId algo sig : string)
    (headers : list string) :
  target = Signature ∨ target = Authorization →
  h !! target = None →
  hasSignatureParameters (http.Get h (otherScheme target)) = false →
  pubKeyId ≠ "" → hasByte "," pubKeyId = false →
  strings.Trim pubKeyId parameterValueDelimiter = pubKeyId →
  hasByte "," algo = false →
  Forall plainName headers →
  sig ≠ "" →
  let h' := setSignatureHeader h target pubKeyId algo
              (base64.EncodeToString sig) headers in
  let r' := http.mkRequest method url h' in
  NewVerifier r'
  = (Some (verifier.mk h' pubKeyId (base64.EncodeToString sig)
             (strings.ToLower <$> signedList headers)
             (λ hd toInclude, signatureString hd toInclude (addRequestTarget r'))),
     None).
Proof.
  intros Ht Hnone Hother Hk0 Hk Hkq Ha Hh Hs h' r'.
  unfold NewVerifier, newVerifier. cbn [http.ReqHeader r'].
  subst h'. rewrite setSignatureHeader_serialize. fold (signedList headers).
  set (enc := base64.EncodeToString sig).
  assert (allBytes isBase64Byte enc = true) as Henc by apply encode_allBytes.
  assert (enc ≠ "") as Henc0.
  { apply encode_nonempty. by destruct sig. }
  assert (hasByte "," enc = false) as Hec
    by (by apply (allBytes_hasByte isBase64Byte)).
  assert (hasByte "034" enc = false) as Heq
    by (by apply (allBytes_hasByte isBase64Byte)).
  assert (signedList headers ≠ []) as Hl0.
  { unfold signedList. case_decide; [done|]. by destruct headers. }
  assert (Forall plainName (signedList headers)) as Hl.
  { unfold signedList. case_decide; [|done].
    apply Forall_cons_2; [by vm_compute | apply Forall_nil_2]. }
  rewrite getSignatureScheme_added; [| done | done | done |].
  2:{ unfold hasSignatureParameters, serialize.
      change ("keyId=" +:+ ?x) with (keyIdParameter +:+ "=" +:+ x).
      by rewrite Contains_prefix. }
  rewrite getSignatureComponents_serialize; try done.
  by apply Trim_no_quote.
Qed.

Variable signerFromString : string → option signer.
Variable macerFromString : string → option macer.

(** C2 (amended).  Take a request that has no header in the signer's slot
    (Signature or Authorization) and no signature parameters in the other
    slot, a key id that is not empty, holds no comma and neither starts nor
    ends with a double quote, and a list of headers whose names hold no
    comma, space or double quote.  Then for every capability that is
    registered under the algorithm name, whose canonical name holds no
    comma, and that accepts its own non-empty signatures: when SignRequest
    returns no error, a verifier can be built from the signed request, its
    KeyId is the key id that was passed to SignRequest, and Verify with the
    matching key returns no error.  This holds for MAC capabilities and for
    asymmetric ones. *)
Theorem C2_round_trip (r : http.Request) (pubKeyId : string)
    (headers : list string) (target : SignatureScheme) :
  target = Signature ∨ target = Authorization →
  http.ReqHeader r !! target = None →
  hasSignatureParameters (http.Get (http.ReqHeader r) (otherScheme target)) = false →
  pubKeyId ≠ "" → hasByte "," pubKeyId = false →
  strings.Trim pubKeyId parameterValueDelimiter = pubKeyId →
  Forall plainName headers →
  (∀ (mc : macer) (key algo : string) (r' : http.Request),
     hasByte "," (macer_String mc) = false →
     signerFromString algo = None → macerFromString algo = Some mc →
     macAccepts mc key →
     macSigner.SignRequest (macSigner.mk mc headers target) (BytesKey key)
       pubKeyId r = (r', None) →
     ∃ v, NewVerifier r' = (Some v, None)
          ∧ verifier.KeyId v = pubKeyId
          ∧ verifier.Verify signerFromString macerFromString v
              (BytesKey key) algo = None)
  ∧ (∀ (sc : signer) (rand : list ascii) (priv pub : Key) (algo : string)
       (r' : http.Request),
       hasByte "," (signer_String sc) = false →
       signerFromString algo = Some sc →
       signerAccepts sc rand priv pub →
       asymmSigner.SignRequest (asymmSigner.mk sc headers target) rand priv
         pubKeyId r = (r', None) →
       ∃ v, NewVerifier r' = (Some v, None)
            ∧ verifier.KeyId v = pubKeyId
            ∧ verifier.Verify signerFromString macerFromString v pub algo
              = None).
Proof.
  intros Ht Hnone Hother Hk0 Hk Hkq Hh.
  assert (http.ReqHeader r !! textproto.CanonicalMIMEHeaderKey target = None)
    as Hnone'.
  { by destruct Ht as [-> | ->]. }
  split.
  - intros mc key algo r' Hname Hs Hm Hacc.
    unfold macSigner.SignRequest, macSigner.signatureString,
      macSigner.signSignature.
    cbn [macSigner.m macSigner.headers macSigner.targetHeader assertBytes].
    destruct (signatureString _ headers _) as [s [e|]] eqn:Hsig; [done|].
    destruct (macer_Sign mc s key) as [sig [e|]] eqn:Hsign; [done|].
    intros [= <-]. destruct (Hacc s sig Hsign) as [Hsig0 Heq].
    eexists. split.
    { by apply NewVerifier_signed. }
    split; [done|].
    unfold verifier.Verify. rewrite Hs, Hm. unfold verifier.macVerify.
    cbn [assertBytes verifier.sigStringFn verifier.header verifier.headers
         verifier.signature].
    rewrite setSignatureHeader_serialize.
    rewrite (signatureString_added r _ _ headers target _ s Hnone' Hsig).
    rewrite DecodeString_EncodeToString. by rewrite Heq.
  - intros sc rand priv pub algo r' Hname Hs Hacc.
    unfold asymmSigner.SignRequest, asymmSigner.signatureString,
      asymmSigner.signSignature.
    cbn [asymmSigner.s asymmSigner.headers asymmSigner.targetHeader].
    destruct (signatureString _ headers _) as [s [e|]] eqn:Hsig; [done|].
    destruct (signer_Sign sc rand priv s) as [sig [e|]] eqn:Hsign; [done|].
    intros [= <-]. destruct (Hacc s sig Hsign) as [Hsig0 Heq].
    eexists. split.
    { by apply NewVerifier_signed. }
    split; [done|].
    unfold verifier.Verify. rewrite Hs. unfold verifier.asymmVerify.
    cbn [verifier.sigStringFn verifier.header verifier.headers
         verifier.signature].
    rewrite setSignatureHeader_serialize.
    rewrite (signatureString_added r _ _ headers target _ s Hnone' Hsig).
    rewrite DecodeString_EncodeToString. by rewrite Heq.
Qed.

End RoundTrip.

(** *** Examples for the round trip *)

(** A verifier is built when the scheme is found and its value parses. *)
Lemma newVerifier_ok (h : http.Header)
    (fn : http.Header → list string → string * option error)
    (s : string) (c : components) :
  getSignatureScheme h = (s, None) →
  getSignatureComponents s = c →
  c_err c = None →
  newVerifier h fn
  = (Some (verifier.mk h (c_kId c) (c_sig c) (c_headers c) fn), None).
Proof. intros Hs <- Hc. unfold newVerifier. by rewrite Hs, Hc. Qed.

Lemma plainMac_accepts (key : string) : key ≠ "" → macAccepts plainMac key.
Proof.
  intros Hk data sig [= <-]. split.
  - by destruct key.
  - cbn. by rewrite bool_decide_true.
Qed.

Lemma plainSigner_accepts (rand : list ascii) (priv pub : Key) :
  signerAccepts plainSigner rand priv pub.
Proof.
  intros data sig [= <-]. split.
  - by destruct data.
  - cbn. by rewrite decide_True.
Qed.

Lemma C2_round_trip_witness :
  (∃ v, NewVerifier signedByAlice = (Some v, None)
        ∧ verifier.KeyId v = "alice"
        ∧ verifier.Verify exampleSigners exampleMacs v (BytesKey "secret")
            "plain" = None)
  ∧ (∃ v, NewVerifier
            (asymmSigner.SignRequest exampleAsymmSigner [] (OpaqueKey 1) "alice"
               exampleRequest).1
          = (Some v, None)
        ∧ verifier.KeyId v = "alice"
        ∧ verifier.Verify exampleSigners exampleMacs v (OpaqueKey 2)
            "plain-sign" = None).
Proof.
  destruct (C2_round_trip exampleSigners exampleMacs exampleRequest "alice"
              ["(request-target)"; "Date"] Signature) as [Hmac Hasym].
  - by left.
  - by vm_compute.
  - by vm_compute.
  - done.
  - by vm_compute.
  - by vm_compute.
  - by_compute.
  - split.
    + apply (Hmac plainMac "secret" "plain").
      * by vm_compute.
      * by vm_compute.
      * by vm_compute.
      * by apply plainMac_accepts.
      * by vm_compute.
    + apply (Hasym plainSigner [] (OpaqueKey 1) (OpaqueKey 2) "plain-sign").
      * by vm_compute.
      * by vm_compute.
      * apply plainSigner_accepts.
      * by vm_compute.
Defined.

(** C2 as stated fails on a request that already carries a signature: the
    MAC accepts everything it signs, bob's SignRequest returns no error, and
    yet the verifier built from the request reports the key id of alice and
    rejects bob's key. *)
Lemma C2_second_signature_is_not_verified :
  (∀ data key, macer_Equal plainMac data (macer_Sign plainMac data key).1 key
               = (true, None))
  ∧ macSigner.SignRequest exampleMacSigner (BytesKey "secret2") "bob" signedByAlice
    = (signedByBoth, None)
  ∧ ∃ v, NewVerifier signedByBoth = (Some v, None)
         ∧ verifier.KeyId v = "alice"
         ∧ verifier.KeyId v ≠ "bob"
         ∧ verifier.Verify exampleSigners exampleMacs v (BytesKey "secret2")
             "plain" = Some ErrInvalidSignature.
Proof.
  split.
  { intros data key. cbn. by rewrite bool_decide_true. }
  split; [by vm_compute|].
  eexists. split.
  { unfold NewVerifier. eapply newVerifier_ok;
      [vm_compute; reflexivity | reflexivity | vm_compute; reflexivity]. }
  split; [by vm_compute|]. split; [by vm_compute|]. by vm_compute.
Qed.

(** The conditions on the key id are needed: with an empty key id, with a
    comma in it, or with quotes around it, SignRequest returns no error and
    the verifier is not built, or reports another key id. *)
Lemma round_trip_needs_a_plain_key_id :
  (let res := macSigner.SignRequest exampleMacSigner (BytesKey "secret") ""
                exampleRequest in
   res.2 = None
   ∧ NewVerifier res.1 = (None, Some (ErrMissingParameter "keyId")))
  ∧ (let res := macSigner.SignRequest exampleMacSigner (BytesKey "secret") "a,b"
                  exampleRequest in
     res.2 = None
     ∧ NewVerifier res.1
       = (None, Some (ErrMalformedParameter ["b" +:+ quote])))
  ∧ (let res := macSigner.SignRequest exampleMacSigner (BytesKey "secret")
                  (quote +:+ "a" +:+ quote) exampleRequest in
     res.2 = None
     ∧ ∃ v, NewVerifier res.1 = (Some v, None) ∧ verifier.KeyId v = "a").
Proof.
  split; [by vm_compute|]. split; [by vm_compute|].
  split; [by vm_compute|]. eexists. split.
  - unfold NewVerifier. eapply newVerifier_ok;
      [vm_compute; reflexivity | reflexivity | vm_compute; reflexivity].
  - by vm_compute.
Qed.

(** With an entry under the empty name in the header map, the list of the
    one empty name canonicalizes to a line with an empty name. *)
Lemma signatureString_empty_name_present :
  signatureString {["" := ["v"]]} [""] requestTargetNotPermitted
  = (": v", None).
Proof. by vm_compute. Qed.

(** * Further properties of the two files *)

(** ** What the canonical string depends on *)

Section SameString.
Import bytes buffer_spec buffer_facts.

Lemma writeValues_trimmed (hv1 hv2 : list string) (n i : nat) (b : Buffer)
    (h : Arena) :
  strings.TrimSpace <$> hv1 = strings.TrimSpace <$> hv2 →
  writeValues n i hv1 b h = writeValues n i hv2 b h.
Proof.
  revert hv2 i b h. induction hv1 as [|v1 r1 IH]; intros [|v2 r2] i b h Heq;
    try done.
  rewrite !fmap_cons in Heq. injection Heq as Hv Hr.
  cbn [writeValues]. unfold mbind, M_bind. rewrite Hv.
  destruct (WriteString b (strings.TrimSpace v2) h) as [b1 h1].
  destruct ((if decide (Z.of_nat i < Z.of_nat n - 1)%Z
             then WriteString b1 headerValueDelimiter else mret b1) h1)
    as [b2 h2].
  by apply IH.
Qed.

(** Two runs of the loop write the same bytes and make the same calls when
    the lists agree up to the case of the letters and the occurrences of
    every header they name agree up to the white space around them. *)
Lemma writeComponents_same (values1 values2 : http.Header)
    (fn : requestTargetFn) (include1 include2 : list string) :
  Forall2 (λ i1 i2,
      strings.ToLower i1 = strings.ToLower i2
      ∧ (strings.ToLower i1 ≠ RequestTarget →
         trimmedValues values1 (headerKey i1) = trimmedValues values2 (headerKey i1)))
    include1 include2 →
  ∀ L n b h,
    writeComponents values1 fn L n include1 b h
    = writeComponents values2 fn L n include2 b h.
Proof.
  induction 1 as [|i1 i2 r1 r2 [Hi Hv] Hr IH]; intros L n b h; [done|].
  rewrite !writeComponents_cons. rewrite <- Hi.
  destruct (decide (strings.ToLower i1 = RequestTarget)) as [Hrt|Hrt].
  - unfold mbind, M_bind. destruct (fn b h) as [[err|] h1]; [done|].
    cbn [fst snd mret M_ret].
    destruct ((if decide (Z.of_nat n < Z.of_nat L - 1)%Z
               then WriteString b headersDelimiter else mret b) h1)
      as [b2 h2].
    apply IH.
  - specialize (Hv Hrt). unfold trimmedValues, headerKey in Hv.
    destruct (values1 !! _) as [hv1|], (values2 !! _) as [hv2|];
      try done.
    cbn in Hv. injection Hv as Hv.
    assert (length hv1 = length hv2) as Hlen.
    { by rewrite <- (length_fmap strings.TrimSpace hv1), Hv, length_fmap. }
    unfold mbind, M_bind.
    destruct (WriteString b (strings.ToLower i1) h) as [b1 h1].
    destruct (WriteString b1 headerFieldDelimiter h1) as [b2 h2].
    rewrite Hlen, (writeValues_trimmed hv1 hv2 _ _ _ _ Hv).
    destruct (writeValues (length hv2) 0 hv2 b2 h2) as [b3 h3].
    cbn [fst snd mret M_ret].
    destruct ((if decide (Z.of_nat n < Z.of_nat L - 1)%Z
               then WriteString b3 headersDelimiter else mret b3) h3)
      as [b4 h4].
    apply IH.
Qed.

Lemma signatureString_same (values1 values2 : http.Header)
    (fn : requestTargetFn) (include1 include2 : list string) :
  Forall2 (λ i1 i2,
      strings.ToLower i1 = strings.ToLower i2
      ∧ (strings.ToLower i1 ≠ RequestTarget →
         trimmedValues values1 (headerKey i1) = trimmedValues values2 (headerKey i1)))
    (signedList include1) (signedList include2) →
  signatureString values1 include1 fn = signatureString values2 include2 fn.
Proof.
  intros Hall. unfold signatureString. fold (signedList include1).
  fold (signedList include2).
  rewrite (Forall2_length _ _ _ Hall).
  unfold run, mbind, M_bind.
  by rewrite (writeComponents_same values1 values2 fn _ _ Hall).
Qed.

End SameString.

(** X1.  The names of the components count up to the case of their letters:
    two lists of the same length whose names agree once lowercased give the
    same canonical string or the same error, whatever the header map and the
    request-target function. *)
Theorem component_names_are_case_insensitive (values : http.Header)
    (include1 include2 : list string) (fn : requestTargetFn) :
  Forall2 (λ i1 i2, strings.ToLower i1 = strings.ToLower i2) include1 include2 →
  signatureString values include1 fn = signatureString values include2 fn.
Proof.
  intros Hall. apply signatureString_same. unfold signedList.
  rewrite (Forall2_length _ _ _ Hall).
  destruct (decide (length include2 = 0)) as [_|_].
  - constructor; [done | constructor].
  - eapply Forall2_impl; [exact Hall|]. by intros i1 i2 Hi.
Qed.

Lemma component_names_are_case_insensitive_witness :
  signatureString exampleHeader ["DATE"] requestTargetNotPermitted
  = signatureString exampleHeader ["date"] requestTargetNotPermitted.
Proof.
  apply component_names_are_case_insensitive.
  constructor; [by vm_compute | constructor].
Defined.

(** X2.  The canonical string depends on the signed headers only: for a list
    of ASCII names, two header maps that agree under the key of every listed
    component (the default list when the list is empty) give the same
    canonical string or the same error.  A header that is not signed can be
    added, changed or removed without any effect on what is signed or
    verified. *)
Theorem unsigned_headers_are_not_signed (values1 values2 : http.Header)
    (include : list string) (fn : requestTargetFn) :
  Forall isASCII (signedList include) →
  (∀ i, i ∈ signedList include →
        values1 !! headerKey i = values2 !! headerKey i) →
  signatureString values1 include fn = signatureString values2 include fn.
Proof.
  intros _ Hagree. apply signatureString_same.
  apply Forall2_same_length_lookup_2; [done|].
  intros k i1 i2 H1 H2. rewrite H1 in H2. injection H2 as <-.
  split; [done|]. intros _. unfold trimmedValues.
  rewrite Hagree; [done|]. by eapply list_elem_of_lookup_2.
Qed.

Lemma unsigned_headers_are_not_signed_witness :
  signatureString exampleHeader ["date"] requestTargetNotPermitted
  = signatureString (http.Add exampleHeader "Host" "example.org") ["date"]
      requestTargetNotPermitted.
Proof.
  apply unsigned_headers_are_not_signed; [by_compute|].
  intros i Hi. apply list_elem_of_singleton in Hi as ->. by vm_compute.
Defined.

(** X3.  White space around a header value is not signed: two header maps
    whose values agree once each occurrence is trimmed give the same
    canonical string or the same error, for every list and every
    request-target function. *)
Theorem surrounding_space_is_not_signed (values1 values2 : http.Header)
    (include : list string) (fn : requestTargetFn) :
  fmap (M:=gmap string) (fmap (M:=list) strings.TrimSpace) values1
  = fmap (M:=gmap string) (fmap (M:=list) strings.TrimSpace) values2 →
  signatureString values1 include fn = signatureString values2 include fn.
Proof.
  intros Heq. apply signatureString_same.
  apply Forall2_same_length_lookup_2; [done|].
  intros k i1 i2 H1 H2. rewrite H1 in H2. injection H2 as <-.
  split; [done|]. intros _. unfold trimmedValues.
  by rewrite <- !lookup_fmap, Heq.
Qed.

Lemma surrounding_space_is_not_signed_witness :
  signatureString examplePaddedHeader ["date"] requestTargetNotPermitted
  = signatureString exampleHeader ["date"] requestTargetNotPermitted.
Proof.
  apply surrounding_space_is_not_signed. by vm_compute.
Defined.

(** ** Requests, responses and the request target *)

Section Targets.

Lemma canonicalLines_without_target (values : http.Header)
    (e1 e2 : option error) (include : list string) :
  Forall (λ i, strings.ToLower i ≠ RequestTarget) include →
  canonicalLines values e1 include = canonicalLines values e2 include.
Proof.
  induction 1 as [|i rest Hi Hrest IH]; [done|].
  cbn [canonicalLines]. unfold component.
  destruct (decide (strings.ToLower i = RequestTarget)) as [?|_]; [done|].
  by rewrite IH.
Qed.

Lemma canonicalLines_not_permitted (values : http.Header)
    (include : list string) :
  Exists (λ i, strings.ToLower i = RequestTarget) include →
  ∃ err,
    canonicalLines values (Some ErrRequestTargetNotPermitted) include = inr err
    ∧ (err = ErrRequestTargetNotPermitted
       ∨ ∃ i, i ∈ include ∧ values !! headerKey i = None
              ∧ err = ErrMissingHeader (strings.ToLower i)).
Proof.
  induction include as [|i rest IH]; intros Hex.
  - by apply Exists_nil in Hex.
  - cbn [canonicalLines]. unfold component.
    destruct (decide (strings.ToLower i = RequestTarget)) as [Hrt|Hrt].
    { exists ErrRequestTargetNotPermitted. by split; [|left]. }
    apply Exists_cons in Hex as [?|Hex]; [done|].
    destruct (values !! textproto.CanonicalMIMEHeaderKey (strings.ToLower i))
      as [hv|] eqn:Hv.
    + destruct (IH Hex) as (err & -> & Herr). exists err. split; [done|].
      destruct Herr as [?|(j & Hj & Hnone & ->)]; [by left|].
      right. exists j. split; [by right | done].
    + exists (ErrMissingHeader (strings.ToLower i)). split; [done|].
      right. exists i. split; [by left | done].
Qed.

Lemma signatureString_not_permitted (values : http.Header)
    (include : list string) :
  Exists (λ i, strings.ToLower i = RequestTarget) include →
  ∃ err,
    signatureString values include requestTargetNotPermitted = ("", Some err)
    ∧ (err = ErrRequestTargetNotPermitted
       ∨ ∃ i, i ∈ include ∧ values !! headerKey i = None
              ∧ err = ErrMissingHeader (strings.ToLower i)).
Proof.
  intros Hex.
  rewrite (signatureString_lines _ _ _ _ requestTargetNotPermitted_returns).
  destruct (decide (length include = 0)) as [H0|_].
  { destruct include; [by apply Exists_nil in Hex | done]. }
  destruct (canonicalLines_not_permitted values include Hex) as (err & -> & H).
  by exists err.
Qed.

Lemma signatureString_response_as_request (values : http.Header)
    (include : list string) (r : http.Request) :
  Forall (λ i, strings.ToLower i ≠ RequestTarget) include →
  signatureString values include requestTargetNotPermitted
  = signatureString values include (addRequestTarget r).
Proof.
  intros Hall.
  rewrite (signatureString_lines _ _ _ _ requestTargetNotPermitted_returns).
  rewrite signatureString_request.
  rewrite (canonicalLines_without_target values
             (Some ErrRequestTargetNotPermitted) None); [done|].
  case_decide; [|done]. constructor; [done | constructor].
Qed.

End Targets.

(** X4.  A response cannot be signed with the request target: when the list
    of a signer, of ASCII names, names the pseudo-component (in any case of
    its letters), SignResponse of both kinds of signer returns an error and the response as
    it was; the error is the not-permitted error unless a listed header is
    missing from the map, in which case it may be the missing-header error
    of such a header. *)
Theorem response_rejects_request_target :
  (∀ ms pKey pubKeyId w,
     Forall isASCII (macSigner.headers ms) →
     Exists (λ i, strings.ToLower i = RequestTarget) (macSigner.headers ms) →
     ∃ err,
       macSigner.SignResponse ms pKey pubKeyId w = (w, Some err)
       ∧ (err = ErrRequestTargetNotPermitted
          ∨ ∃ i, i ∈ macSigner.headers ms
                 ∧ http.RespHeader w !! headerKey i = None
                 ∧ err = ErrMissingHeader (strings.ToLower i)))
  ∧ (∀ a rand pKey pubKeyId w,
       Forall isASCII (asymmSigner.headers a) →
       Exists (λ i, strings.ToLower i = RequestTarget) (asymmSigner.headers a) →
       ∃ err,
         asymmSigner.SignResponse a rand pKey pubKeyId w = (w, Some err)
         ∧ (err = ErrRequestTargetNotPermitted
            ∨ ∃ i, i ∈ asymmSigner.headers a
                   ∧ http.RespHeader w !! headerKey i = None
                   ∧ err = ErrMissingHeader (strings.ToLower i))).
Proof.
  split.
  - intros ms pKey pubKeyId w _ Hex.
    destruct (signatureString_not_permitted (http.RespHeader w) _ Hex)
      as (err & Hs & Herr).
    exists err. split; [|done].
    unfold macSigner.SignResponse, macSigner.signatureStringResponse.
    by rewrite Hs.
  - intros a rand pKey pubKeyId w _ Hex.
    destruct (signatureString_not_permitted (http.RespHeader w) _ Hex)
      as (err & Hs & Herr).
    exists err. split; [|done].
    unfold asymmSigner.SignResponse, asymmSigner.signatureStringResponse.
    by rewrite Hs.
Qed.

Lemma response_rejects_request_target_witness :
  ∃ err,
    macSigner.SignResponse exampleMacSigner (BytesKey "secret") "alice"
      exampleResponse = (exampleResponse, Some err)
    ∧ (err = ErrRequestTargetNotPermitted
       ∨ ∃ i, i ∈ macSigner.headers exampleMacSigner
              ∧ http.RespHeader exampleResponse !! headerKey i = None
              ∧ err = ErrMissingHeader (strings.ToLower i)).
Proof.
  apply (proj1 response_rejects_request_target).
  - by_compute.
  - apply Exists_cons_hd. by vm_compute.
Defined.

(** X5.  The method and the URL of a request are not signed: what
    addRequestTarget writes goes to a copy of the buffer, so two requests
    with the same header map have the same canonical string for every list
    of components, and SignRequest of either kind of signer returns the same
    error and leaves the same header map for both. *)
Theorem request_line_is_not_signed (r1 r2 : http.Request) :
  http.ReqHeader r1 = http.ReqHeader r2 →
  (∀ values include,
     signatureString values include (addRequestTarget r1)
     = signatureString values include (addRequestTarget r2))
  ∧ (∀ ms pKey pubKeyId,
       let res1 := macSigner.SignRequest ms pKey pubKeyId r1 in
       let res2 := macSigner.SignRequest ms pKey pubKeyId r2 in
       res1.2 = res2.2 ∧ http.ReqHeader res1.1 = http.ReqHeader res2.1)
  ∧ (∀ a rand pKey pubKeyId,
       let res1 := asymmSigner.SignRequest a rand pKey pubKeyId r1 in
       let res2 := asymmSigner.SignRequest a rand pKey pubKeyId r2 in
       res1.2 = res2.2 ∧ http.ReqHeader res1.1 = http.ReqHeader res2.1).
Proof.
  intros Hh.
  assert (∀ values include,
            signatureString values include (addRequestTarget r1)
            = signatureString values include (addRequestTarget r2)) as Hs.
  { intros values include. by rewrite !signatureString_request. }
  split; [done|]. split.
  - intros ms pKey pubKeyId res1 res2. subst res1 res2.
    unfold macSigner.SignRequest, macSigner.signatureString.
    rewrite Hh, Hs.
    destruct (signatureString _ _ _) as [s [e|]]; [by cbn; rewrite ?Hh|].
    destruct (macSigner.signSignature ms pKey s) as [enc [e|]]; [by cbn; rewrite ?Hh|].
    done.
  - intros a rand pKey pubKeyId res1 res2. subst res1 res2.
    unfold asymmSigner.SignRequest, asymmSigner.signatureString.
    rewrite Hh, Hs.
    destruct (signatureString _ _ _) as [s [e|]]; [by cbn; rewrite ?Hh|].
    destruct (asymmSigner.signSignature a rand pKey s) as [enc [e|]]; [by cbn; rewrite ?Hh|].
    done.
Qed.

Lemma request_line_is_not_signed_witness :
  http.ReqHeader
    (macSigner.SignRequest exampleMacSigner (BytesKey "secret") "alice"
       exampleRequest).1
  = http.ReqHeader
      (macSigner.SignRequest exampleMacSigner (BytesKey "secret") "alice"
         exampleOtherRequest).1.
Proof.
  apply (proj1 (proj2 (request_line_is_not_signed exampleRequest
                         exampleOtherRequest eq_refl))).
Defined.

(** X6.  When the list of a signer does not name the request target, signing
    a response is signing a request with the same header map: SignResponse
    and SignRequest return the same error and leave the same header map, for
    both kinds of signer. *)
Theorem response_signing_is_request_signing (r : http.Request)
    (w : http.ResponseWriter) :
  http.ReqHeader r = http.RespHeader w →
  (∀ ms pKey pubKeyId,
     Forall (λ i, strings.ToLower i ≠ RequestTarget) (macSigner.headers ms) →
     let req := macSigner.SignRequest ms pKey pubKeyId r in
     let resp := macSigner.SignResponse ms pKey pubKeyId w in
     req.2 = resp.2 ∧ http.ReqHeader req.1 = http.RespHeader resp.1)
  ∧ (∀ a rand pKey pubKeyId,
       Forall (λ i, strings.ToLower i ≠ RequestTarget) (asymmSigner.headers a) →
       let req := asymmSigner.SignRequest a rand pKey pubKeyId r in
       let resp := asymmSigner.SignResponse a rand pKey pubKeyId w in
       req.2 = resp.2 ∧ http.ReqHeader req.1 = http.RespHeader resp.1).
Proof.
  intros Hh. split.
  - intros ms pKey pubKeyId Hall req resp. subst req resp.
    unfold macSigner.SignRequest, macSigner.SignResponse,
      macSigner.signatureString, macSigner.signatureStringResponse.
    rewrite (signatureString_response_as_request _ _ r Hall), Hh.
    destruct (signatureString _ _ _) as [s [e|]]; [by cbn; rewrite ?Hh|].
    destruct (macSigner.signSignature ms pKey s) as [enc [e|]]; [by cbn; rewrite ?Hh|].
    done.
  - intros a rand pKey pubKeyId Hall req resp. subst req resp.
    unfold asymmSigner.SignRequest, asymmSigner.SignResponse,
      asymmSigner.signatureString, asymmSigner.signatureStringResponse.
    rewrite (signatureString_response_as_request _ _ r Hall), Hh.
    destruct (signatureString _ _ _) as [s [e|]]; [by cbn; rewrite ?Hh|].
    destruct (asymmSigner.signSignature a rand pKey s) as [enc [e|]];
      [by cbn; rewrite ?Hh|].
    done.
Qed.

Lemma response_signing_is_request_signing_witness :
  http.ReqHeader
    (macSigner.SignRequest (macSigner.mk plainMac ["Date"] Signature)
       (BytesKey "secret") "alice" exampleRequest).1
  = http.RespHeader
      (macSigner.SignResponse (macSigner.mk plainMac ["Date"] Signature)
         (BytesKey "secret") "alice" exampleResponse).1.
Proof.
  apply (proj1 (response_signing_is_request_signing exampleRequest
                  exampleResponse eq_refl)).
  cbn [macSigner.headers]. constructor; [by vm_compute | constructor].
Defined.

(** ** The parser of the signature header *)

Section Parser.
Import strings.

(** The scan of a list of tokens followed by another: the scan of the
    second list from where the scan of the first one ended, unless that one
    ended with an error. *)
Lemma scanParams_compose (pre rest : list string) (kId sig : string)
    (headers : list string) :
  scanParams (pre ++ rest) kId sig headers
  = let r := scanParams pre kId sig headers in
    match c_err r with
    | Some _ => r
    | None => scanParams rest (c_kId r) (c_sig r) (c_headers r)
    end.
Proof.
  revert kId sig headers.
  induction pre as [|p pre IH]; intros kId sig headers; [done|].
  cbn [app scanParams].
  destruct (decide (length _ ≠ 2)) as [?|_]; [done|].
  repeat case_decide; apply IH.
Qed.

Lemma getSignatureComponents_of_scan (s s' : string) :
  scanParams (Split s parameterSeparater) "" "" []
  = scanParams (Split s' parameterSeparater) "" "" [] →
  getSignatureComponents s = getSignatureComponents s'.
Proof. intros H. unfold getSignatureComponents. by rewrite H. Qed.

Lemma wellFormedParam_token (key value : string) :
  hasByte "=" key = false → wellFormedParam (key +:+ "=" +:+ value).
Proof.
  intros Hk. unfold wellFormedParam. by rewrite SplitN_key_value.
Qed.

(** Quotes around a value are all trimmed. *)
Lemma Trim_quotes (x : string) :
  Trim (quote +:+ x +:+ quote) parameterValueDelimiter
  = Trim x parameterValueDelimiter.
Proof.
  unfold Trim. set (f := inCutset parameterValueDelimiter).
  rewrite !TrimRightFunc_app. change (TrimRightFunc f quote) with "".
  destruct (TrimRightFunc f x) as [|d r] eqn:Hr; [done|].
  change (quote +:+ String d r) with (String "034" (String d r)).
  cbn [TrimLeftFunc]. by change (f "034"%char) with true.
Qed.

(** The fields of the result are those of the scan, but for the default
    list of headers. *)
Lemma getSignatureComponents_fields (s : string) :
  let r := scanParams (Split s parameterSeparater) "" "" [] in
  c_kId (getSignatureComponents s) = c_kId r
  ∧ c_sig (getSignatureComponents s) = c_sig r
  ∧ (c_headers r ≠ [] → c_headers (getSignatureComponents s) = c_headers r).
Proof.
  intros r. unfold getSignatureComponents. fold r.
  destruct (c_err r); [done|].
  repeat case_decide; cbn [c_kId c_sig c_headers]; try done.
  split; [done|]. split; [done|]. intros Hne. by destruct (c_headers r).
Qed.

Lemma getSignatureComponents_success (s : string) :
  c_err (getSignatureComponents s) = None →
  c_kId (getSignatureComponents s) ≠ ""
  ∧ c_sig (getSignatureComponents s) ≠ ""
  ∧ c_headers (getSignatureComponents s) ≠ [].
Proof.
  unfold getSignatureComponents.
  set (r := scanParams (Split s parameterSeparater) "" "" []).
  destruct (c_err r) eqn:He; [by rewrite He|].
  destruct (decide (String.length (c_kId r) = 0)) as [|Hk]; [done|].
  destruct (decide (String.length (c_sig r) = 0)) as [|Hs]; [done|].
  assert (c_kId r ≠ "") by (intros E; by rewrite E in Hk).
  assert (c_sig r ≠ "") by (intros E; by rewrite E in Hs).
  destruct (decide (length (c_headers r) = 0)) as [|Hh]; cbn; intros _.
  - done.
  - repeat split; try done. intros E. by rewrite E in Hh.
Qed.

End Parser.

(** X7.  When a parameter comes more than once the last one decides: with
    all the other tokens well formed, the key id (the signature, the list of
    headers) of the result is the trimmed value of the last token whose key
    is keyId (signature, headers), whatever came before it. *)
Theorem last_parameter_decides (s : string) (pre post : list string)
    (v : string) :
  Forall wellFormedParam (pre ++ post) →
  let r := getSignatureComponents s in
  (strings.Split s parameterSeparater = pre ++ ("keyId" +:+ "=" +:+ v) :: post →
   Forall (λ p, paramKey p ≠ keyIdParameter) post →
   c_kId r = strings.Trim v parameterValueDelimiter)
  ∧ (strings.Split s parameterSeparater
       = pre ++ ("signature" +:+ "=" +:+ v) :: post →
     Forall (λ p, paramKey p ≠ signatureParameter) post →
     c_sig r = strings.Trim v parameterValueDelimiter)
  ∧ (strings.Split s parameterSeparater
       = pre ++ ("headers" +:+ "=" +:+ v) :: post →
     Forall (λ p, paramKey p ≠ headersParameter) post →
     c_headers r
     = strings.Split (strings.Trim v parameterValueDelimiter)
         headerParameterValueDelim).
Proof.
  intros Hwf r. apply Forall_app in Hwf as [Hpre Hpost].
  destruct (getSignatureComponents_fields s) as (Hk & Hs & Hh).
  pose proof (scanParams_wellFormed pre "" "" [] Hpre) as Hepre.
  split; [|split]; intros Hsplit Habs; subst r.
  - rewrite Hk, Hsplit, scanParams_compose. cbn zeta. rewrite Hepre.
    rewrite scanParams_keyId. by apply scanParams_kId_absent.
  - rewrite Hs, Hsplit, scanParams_compose. cbn zeta. rewrite Hepre.
    rewrite scanParams_signature. by apply scanParams_sig_absent.
  - assert (c_headers (scanParams (strings.Split s parameterSeparater) "" "" [])
            = strings.Split (strings.Trim v parameterValueDelimiter)
                headerParameterValueDelim) as Hscan.
    { rewrite Hsplit, scanParams_compose. cbn zeta. rewrite Hepre.
      rewrite scanParams_headers. by apply scanParams_headers_absent. }
    rewrite Hh; [done|]. rewrite Hscan. unfold strings.Split.
    rewrite decide_False by done. apply genSplit_nonempty.
Qed.

Lemma last_parameter_decides_witness :
  c_kId (getSignatureComponents exampleRepeatedParams) = "b".
Proof.
  refine (proj1 (last_parameter_decides exampleRepeatedParams
            ["keyId=" +:+ quote +:+ "a" +:+ quote;
             "algorithm=" +:+ quote +:+ "x" +:+ quote; "created=1"]
            ["signature=" +:+ quote +:+ "c" +:+ quote] "b" _) _ _).
  - by_compute.
  - by vm_compute.
  - by_compute.
Defined.

(** X8.  A well-formed token whose key is not keyId, headers or signature
    (the algorithm parameter, or a parameter the parser does not know) has
    no effect on the result: the header value with the token and the header
    value without it parse to the same components and the same error. *)
Theorem other_parameters_are_ignored (s s' : string) (pre post : list string)
    (p : string) :
  strings.Split s parameterSeparater = pre ++ p :: post →
  strings.Split s' parameterSeparater = pre ++ post →
  wellFormedParam p →
  paramKey p ≠ keyIdParameter → paramKey p ≠ headersParameter →
  paramKey p ≠ signatureParameter →
  getSignatureComponents s = getSignatureComponents s'.
Proof.
  intros Hs Hs' Hwf Hk Hh Hg. apply getSignatureComponents_of_scan.
  rewrite Hs, Hs', !scanParams_compose. cbn zeta.
  destruct (c_err (scanParams pre "" "" [])); [done|].
  cbn [scanParams]. destruct (decide (length _ ≠ 2)) as [?|_]; [done|].
  fold (paramKey p). by repeat case_decide.
Qed.

Lemma other_parameters_are_ignored_witness :
  getSignatureComponents
    ("keyId=" +:+ quote +:+ "a" +:+ quote +:+ ",algorithm=" +:+ quote +:+ "x"
     +:+ quote +:+ ",signature=" +:+ quote +:+ "b" +:+ quote)
  = getSignatureComponents exampleParams.
Proof.
  apply (other_parameters_are_ignored _ _
           ["keyId=" +:+ quote +:+ "a" +:+ quote]
           ["signature=" +:+ quote +:+ "b" +:+ quote]
           ("algorithm=" +:+ quote +:+ "x" +:+ quote)).
  - by vm_compute.
  - by vm_compute.
  - by_compute.
  - by vm_compute.
  - by vm_compute.
  - by vm_compute.
Defined.

(** X9.  The quotes around a parameter value are optional for the parser: a
    token with its value between double quotes and the token with the bare
    value, in the same place of a header value, give the same result. *)
Theorem quotes_are_optional (s s' : string) (pre post : list string)
    (key x : string) :
  strings.Split s parameterSeparater
    = pre ++ (key +:+ "=" +:+ (quote +:+ x +:+ quote)) :: post →
  strings.Split s' parameterSeparater = pre ++ (key +:+ "=" +:+ x) :: post →
  hasByte "=" key = false →
  getSignatureComponents s = getSignatureComponents s'.
Proof.
  intros Hs Hs' Hk. apply getSignatureComponents_of_scan.
  rewrite Hs, Hs', !scanParams_compose. cbn zeta.
  destruct (c_err (scanParams pre "" "" [])); [done|].
  rewrite !scanParams_token by done. cbn zeta. by rewrite Trim_quotes.
Qed.

Lemma quotes_are_optional_witness :
  getSignatureComponents exampleParams
  = getSignatureComponents ("keyId=a,signature=" +:+ quote +:+ "b" +:+ quote).
Proof.
  apply (quotes_are_optional _ _ [] ["signature=" +:+ quote +:+ "b" +:+ quote]
           "keyId" "a").
  - by vm_compute.
  - by vm_compute.
  - by vm_compute.
Defined.

(** X10.  A verifier that newVerifier builds has a key id and a signature
    that are not empty and a list of headers that is not empty, and holds
    the header map it was built from; building it does not run the
    canonicalization: with any other canonicalization function the same
    verifier is built. *)
Theorem built_verifier_is_complete (h : http.Header)
    (fn : http.Header → list string → string * option error)
    (v : verifier.t) :
  newVerifier h fn = (Some v, None) →
  verifier.header v = h
  ∧ verifier.KeyId v ≠ ""
  ∧ verifier.signature v ≠ ""
  ∧ verifier.headers v ≠ []
  ∧ ∀ fn', newVerifier h fn'
           = (Some (verifier.mk h (verifier.kId v) (verifier.signature v)
                      (verifier.headers v) fn'), None).
Proof.
  unfold newVerifier.
  destruct (getSignatureScheme h) as [s [e|]]; [done|].
  destruct (c_err (getSignatureComponents s)) eqn:He; [done|].
  intros [= <-]. cbn.
  destruct (getSignatureComponents_success s He) as (Hk & Hs & Hh).
  done.
Qed.

Lemma built_verifier_is_complete_witness :
  verifier.header exampleVerifier = http.ReqHeader signedByAlice
  ∧ verifier.KeyId exampleVerifier ≠ "".
Proof.
  refine (let H := built_verifier_is_complete
            (http.ReqHeader signedByAlice)
            (λ h toInclude, signatureString h toInclude (addRequestTarget signedByAlice))
            exampleVerifier _ in conj (proj1 H) (proj1 (proj2 H))).
  unfold exampleVerifier. eapply newVerifier_ok;
    [vm_compute; reflexivity | reflexivity | vm_compute; reflexivity].
Defined.

(** ** Writing and reading the signature header *)

Section Codec.

Lemma Get_Add_empty (h : http.Header) (key value : string) :
  default [] (h !! textproto.CanonicalMIMEHeaderKey key) = [] →
  http.Get (http.Add h key value) key = value.
Proof.
  intros Hnone. unfold http.Get, http.Add.
  by rewrite lookup_insert_eq, Hnone.
Qed.

Lemma Get_Add_first (h : http.Header) (target key value v : string)
    (vs : list string) :
  h !! textproto.CanonicalMIMEHeaderKey target = Some (v :: vs) →
  http.Get (http.Add h target value) key = http.Get h key.
Proof.
  intros Hsome. unfold http.Get, http.Add.
  destruct (decide (textproto.CanonicalMIMEHeaderKey target
                    = textproto.CanonicalMIMEHeaderKey key)) as [Heq|Hne].
  - rewrite <- Heq, lookup_insert_eq, Hsome. done.
  - by rewrite lookup_insert_ne.
Qed.

Lemma canonicalLines_folded (values : http.Header) (k : string)
    (vs : list string) (e : option error) (include : list string) :
  values !! k = Some vs →
  strings.TrimSpace (folded vs) = folded vs →
  canonicalLines (<[k := [folded vs]]> values) e include
  = canonicalLines values e include.
Proof.
  intros Hk Htrim. induction include as [|i rest IH]; [done|].
  cbn [canonicalLines]. rewrite IH. unfold component.
  destruct (decide (strings.ToLower i = RequestTarget)) as [|_]; [done|].
  destruct (decide (k = textproto.CanonicalMIMEHeaderKey (strings.ToLower i)))
    as [->|Hne].
  - rewrite lookup_insert_eq, Hk. cbn [fmap list_fmap strings.Join].
    rewrite Htrim. done.
  - by rewrite lookup_insert_ne.
Qed.

End Codec.

(** X11.  What setSignatureHeader writes, getSignatureComponents reads back:
    for a header map with no value in the target header, a key id that is
    not empty, holds no comma and neither starts nor ends with a double
    quote, an algorithm name without comma, ASCII header names without comma,
    space or double quote, and an encoded signature that is not empty, holds
    no comma and neither starts nor ends with a double quote, parsing the
    value of the target header after setSignatureHeader succeeds and returns
    the key id, the encoded signature, and the lowercased list of headers
    (the list [date] for an empty list). *)
Theorem written_header_is_read_back (h : http.Header)
    (targetHeader pubKeyId algo enc : string) (headers : list string) :
  default [] (h !! textproto.CanonicalMIMEHeaderKey targetHeader) = [] →
  pubKeyId ≠ "" → hasByte "," pubKeyId = false →
  strings.Trim pubKeyId parameterValueDelimiter = pubKeyId →
  hasByte "," algo = false →
  Forall isASCII headers →
  Forall plainName headers →
  enc ≠ "" → hasByte "," enc = false →
  strings.Trim enc parameterValueDelimiter = enc →
  getSignatureComponents
    (http.Get (setSignatureHeader h targetHeader pubKeyId algo enc headers)
       targetHeader)
  = mkComponents pubKeyId enc (strings.ToLower <$> signedList headers) None.
Proof.
  intros Hnone Hk0 Hk Hkq Ha _ Hh He0 He Heq.
  rewrite setSignatureHeader_serialize, Get_Add_empty by done.
  fold (signedList headers).
  apply getSignatureComponents_serialize; try done.
  - unfold signedList. case_decide; [done|]. by destruct headers.
  - unfold signedList. case_decide; [|done].
    apply Forall_cons_2; [by vm_compute | apply Forall_nil_2].
Qed.

Lemma written_header_is_read_back_witness :
  getSignatureComponents
    (http.Get (setSignatureHeader exampleHeader "Signature" "alice"
                 "hmac-sha256" "c2ln" ["Date"; "Host"]) "Signature")
  = mkComponents "alice" "c2ln" ["date"; "host"] None.
Proof.
  apply (written_header_is_read_back exampleHeader "Signature" "alice"
           "hmac-sha256" "c2ln" ["Date"; "Host"]).
  - by vm_compute.
  - done.
  - by vm_compute.
  - by vm_compute.
  - by vm_compute.
  - by_compute.
  - by_compute.
  - done.
  - by vm_compute.
  - by vm_compute.
Defined.

(** X12.  Only the first value of a slot is read: when the target header
    already has a value, the value setSignatureHeader appends changes neither
    the result of the scheme locator nor, for any canonicalization function,
    the error of newVerifier or the key id of the verifier it builds. *)
Theorem later_signature_is_not_read (h : http.Header)
    (targetHeader pubKeyId algo enc : string) (headers : list string)
    (v : string) (vs : list string) :
  h !! textproto.CanonicalMIMEHeaderKey targetHeader = Some (v :: vs) →
  let h' := setSignatureHeader h targetHeader pubKeyId algo enc headers in
  getSignatureScheme h' = getSignatureScheme h
  ∧ ∀ fn, (newVerifier h' fn).2 = (newVerifier h fn).2
          ∧ verifier.KeyId <$> (newVerifier h' fn).1
            = verifier.KeyId <$> (newVerifier h fn).1.
Proof.
  intros Hsome h'.
  assert (getSignatureScheme h' = getSignatureScheme h) as Hs.
  { subst h'. rewrite setSignatureHeader_serialize. unfold getSignatureScheme.
    by rewrite !(Get_Add_first h targetHeader _ _ v vs Hsome). }
  split; [done|]. intros fn. unfold newVerifier. rewrite Hs.
  destruct (getSignatureScheme h) as [s [e|]]; [done|].
  by destruct (c_err (getSignatureComponents s)).
Qed.

Lemma later_signature_is_not_read_witness :
  getSignatureScheme
    (setSignatureHeader (http.ReqHeader signedByAlice) "Signature" "bob"
       "plain" "c2ln" ["Date"])
  = getSignatureScheme (http.ReqHeader signedByAlice).
Proof.
  apply (later_signature_is_not_read (http.ReqHeader signedByAlice)
           "Signature" "bob" "plain" "c2ln" ["Date"]
           (http.Get (http.ReqHeader signedByAlice) "Signature") []).
  by vm_compute.
Defined.

(** X13.  The occurrences of a header and the one value that is their
    trimmed join are signed alike: replacing the ASCII occurrences of a
    header by that one value (when trimming leaves it as it is) changes the
    canonical string of no list of components, for a request and for a
    response. *)
Theorem occurrences_are_signed_as_their_join (values : http.Header)
    (k : string) (vs : list string) :
  values !! k = Some vs →
  Forall isASCII vs →
  strings.TrimSpace (folded vs) = folded vs →
  ∀ include,
    (∀ r, signatureString (<[k := [folded vs]]> values) include
            (addRequestTarget r)
          = signatureString values include (addRequestTarget r))
    ∧ signatureString (<[k := [folded vs]]> values) include
        requestTargetNotPermitted
      = signatureString values include requestTargetNotPermitted.
Proof.
  intros Hk _ Htrim include. split.
  - intros r. rewrite !signatureString_request.
    by rewrite (canonicalLines_folded values k vs _ _ Hk Htrim).
  - rewrite !(signatureString_lines _ _ _ _ requestTargetNotPermitted_returns).
    by rewrite (canonicalLines_folded values k vs _ _ Hk Htrim).
Qed.

Lemma occurrences_are_signed_as_their_join_witness :
  signatureString (<["X-Tag" := ["a, b"]]> exampleTwoValues) ["x-tag"; "host"]
    requestTargetNotPermitted
  = signatureString exampleTwoValues ["x-tag"; "host"] requestTargetNotPermitted.
Proof.
  apply (occurrences_are_signed_as_their_join exampleTwoValues "X-Tag"
           [" a "; "b"]).
  - by vm_compute.
  - by_compute.
  - by vm_compute.
Defined.

(** ** Verifying *)

(** X14.  Verify returns no error exactly when the canonicalization of the
    verifier succeeds, the signature parameter decodes, and the capability
    the algorithm resolves to (the asymmetric one first, the MAC otherwise,
    which needs a key that is a byte slice) accepts the canonical string
    with the decoded signature; with an algorithm in neither registry it
    never succeeds. *)
Theorem verify_succeeds_exactly_when_checked
    (signerFromString : string → option signer)
    (macerFromString : string → option macer)
    (v : verifier.t) (pKey : Key) (algo : string) :
  verifier.Verify signerFromString macerFromString v pKey algo = None
  ↔ ∃ s sig,
      verifier.sigStringFn v (verifier.header v) (verifier.headers v) = (s, None)
      ∧ base64.DecodeString (verifier.signature v) = (sig, None)
      ∧ match signerFromString algo with
        | Some sc => signer_Verify sc pKey s sig = None
        | None =>
            match macerFromString algo with
            | Some mc =>
                ∃ key, pKey = BytesKey key
                       ∧ macer_Equal mc s sig key = (true, None)
            | None => False
            end
        end.
Proof.
  unfold verifier.Verify, verifier.asymmVerify, verifier.macVerify.
  split.
  - intros H. destruct (signerFromString algo) as [sc|].
    + destruct (verifier.sigStringFn v _ _) as [s [e|]]; [done|].
      destruct (base64.DecodeString _) as [sig [e|]]; [done|].
      exists s, sig. split; [done|]. split; [done|].
      by destruct (signer_Verify sc pKey s sig).
    + destruct (macerFromString algo) as [mc|]; [|done].
      destruct pKey as [key|n]; [|done]. cbn [assertBytes] in H.
      destruct (verifier.sigStringFn v _ _) as [s [e|]]; [done|].
      destruct (base64.DecodeString _) as [sig [e|]]; [done|].
      exists s, sig. split; [done|]. split; [done|]. exists key.
      split; [done|].
      by destruct (macer_Equal mc s sig key) as [[|] [e|]].
  - intros (s & sig & Hs & Hd & Hc).
    destruct (signerFromString algo) as [sc|].
    + by rewrite Hs, Hd, Hc.
    + destruct (macerFromString algo) as [mc|]; [|done].
      destruct Hc as (key & -> & Heq). cbn [assertBytes].
      by rewrite Hs, Hd, Heq.
Qed.

Section WrongKey.
Variable signerFromString : string → option signer.
Variable macerFromString : string → option macer.

(** X15.  Verifying with a key the MAC rejects is reported as an invalid
    signature: under the conditions of the round trip on the request, the
    key id and the header names, when a MAC signer's SignRequest returns no
    error and the capability rejects under the verifying key what it signed
    under the signing key, the verifier is built, reports the key id that
    was signed with, and Verify returns the invalid-signature error. *)
Theorem wrong_key_is_an_invalid_signature (r r' : http.Request)
    (pubKeyId : string) (headers : list string) (target : SignatureScheme)
    (mc : macer) (key key' algo : string) :
  target = Signature ∨ target = Authorization →
  http.ReqHeader r !! target = None →
  hasSignatureParameters (http.Get (http.ReqHeader r) (otherScheme target)) = false →
  pubKeyId ≠ "" → hasByte "," pubKeyId = false →
  strings.Trim pubKeyId parameterValueDelimiter = pubKeyId →
  Forall plainName headers →
  hasByte "," (macer_String mc) = false →
  signerFromString algo = None → macerFromString algo = Some mc →
  macRejects mc key key' →
  macSigner.SignRequest (macSigner.mk mc headers target) (BytesKey key)
    pubKeyId r = (r', None) →
  ∃ v, NewVerifier r' = (Some v, None)
       ∧ verifier.KeyId v = pubKeyId
       ∧ verifier.Verify signerFromString macerFromString v (BytesKey key')
           algo = Some ErrInvalidSignature.
Proof.
  intros Ht Hnone Hother Hk0 Hk Hkq Hh Hname Hs Hm Hrej.
  assert (http.ReqHeader r !! textproto.CanonicalMIMEHeaderKey target = None)
    as Hnone'.
  { by destruct Ht as [-> | ->]. }
  unfold macSigner.SignRequest, macSigner.signatureString,
    macSigner.signSignature.
  cbn [macSigner.m macSigner.headers macSigner.targetHeader assertBytes].
  destruct (signatureString _ headers _) as [s [e|]] eqn:Hsig; [done|].
  destruct (macer_Sign mc s key) as [sig [e|]] eqn:Hsign; [done|].
  intros [= <-]. destruct (Hrej s sig Hsign) as [Hsig0 Heq].
  eexists. split.
  { by apply NewVerifier_signed. }
  split; [done|].
  unfold verifier.Verify. rewrite Hs, Hm. unfold verifier.macVerify.
  cbn [assertBytes verifier.sigStringFn verifier.header verifier.headers
       verifier.signature].
  rewrite setSignatureHeader_serialize.
  rewrite (signatureString_added r _ _ headers target _ s Hnone' Hsig).
  rewrite DecodeString_EncodeToString. by rewrite Heq.
Qed.

End WrongKey.

Lemma plainMac_rejects : macRejects plainMac "secret" "other".
Proof.
  intros data sig [= <-]. split; [done|]. cbn.
  by rewrite bool_decide_false.
Qed.

Lemma wrong_key_is_an_invalid_signature_witness :
  ∃ v, NewVerifier signedByAlice = (Some v, None)
       ∧ verifier.KeyId v = "alice"
       ∧ verifier.Verify exampleSigners exampleMacs v (BytesKey "other")
           "plain" = Some ErrInvalidSignature.
Proof.
  apply (wrong_key_is_an_invalid_signature exampleSigners exampleMacs
           exampleRequest signedByAlice "alice" ["(request-target)"; "Date"]
           Signature plainMac "secret" "other" "plain").
  - by left.
  - by vm_compute.
  - by vm_compute.
  - done.
  - by vm_compute.
  - by vm_compute.
  - by_compute.
  - by vm_compute.
  - by vm_compute.
  - by vm_compute.
  - apply plainMac_rejects.
  - by vm_compute.
Defined.

(** X16.  A MAC signer or verifier with a key that is not a byte slice never
    calls the capability.  Signing returns the request as it was, with the
    error of the canonicalization when it fails and the key-type error
    otherwise, whatever the capability; verifying with an algorithm that
    resolves to a MAC returns the key-type error whatever the verifier. *)
Theorem mac_needs_a_byte_key :
  (∀ m headers target n pubKeyId r,
     macSigner.SignRequest (macSigner.mk m headers target) (OpaqueKey n)
       pubKeyId r
     = (r, Some match (signatureString (http.ReqHeader r) headers
                         (addRequestTarget r)).2 with
                | Some err => err
                | None => ErrMacPrivateKeyType
                end))
  ∧ (∀ m headers target n pubKeyId w,
       macSigner.SignResponse (macSigner.mk m headers target) (OpaqueKey n)
         pubKeyId w
       = (w, Some match (signatureString (http.RespHeader w) headers
                           requestTargetNotPermitted).2 with
                  | Some err => err
                  | None => ErrMacPrivateKeyType
                  end))
  ∧ (∀ signerFromString macerFromString v m n algo,
       signerFromString algo = None → macerFromString algo = Some m →
       verifier.Verify signerFromString macerFromString v (OpaqueKey n) algo
       = Some ErrMacPublicKeyType).
Proof.
  split; [|split].
  - intros m headers target n pubKeyId r.
    unfold macSigner.SignRequest, macSigner.signatureString,
      macSigner.signSignature. cbn [macSigner.headers assertBytes].
    by destruct (signatureString _ _ _) as [s [e|]].
  - intros m headers target n pubKeyId w.
    unfold macSigner.SignResponse, macSigner.signatureStringResponse,
      macSigner.signSignature. cbn [macSigner.headers assertBytes].
    by destruct (signatureString _ _ _) as [s [e|]].
  - intros sf mf v m n algo Hs Hm. unfold verifier.Verify.
    by rewrite Hs, Hm.
Qed.
